(** * The [/skip] plugin of prow: a shallow embedding of
      [prow/plugins/skip/skip.go] and the properties of its handler.

    The definitions come first:
    - [Utf8] and [Regexp]: what [regexp.MustCompile] and [MatchString] do to
      the comment body, as far as the pattern [(?mi)^/skip\s*$] needs it;
    - [github], [config], [call] and [prog]: the records the handler reads
      and the calls it makes on its collaborators, as a tree of calls and
      continuations;
    - [handle], with its helpers and the body of its loop;
    - the vocabulary of the statements, and a pull request to run the
      handler on.
    The lemmas and theorems follow: decoding and the pattern, runs of
    programs, the loop, the handler path by path, and the properties of the
    skip decision and of the paths around it. *)

From Stdlib Require Import ZArith List String Ascii Bool Lia DecimalString.
Import ListNotations.
Local Open Scope Z_scope.

Set Implicit Arguments.

(** ** Strings as Go sees them: bytes, decoded to runes on demand *)

Module Utf8.

(** Go's [rune] is an [int32]; a byte is a [uint8].  Both are kept in [Z]. *)
Definition rune := Z.

Definition RuneError : rune := 65533.   (* U+FFFD *)

Definition byteOf (a : ascii) : Z := Z.of_N (N_of_ascii a).

Definition bytes (s : string) : list Z := map byteOf (list_ascii_of_string s).

(** Continuation bytes lie in [locb, hicb]. *)
Definition locb : Z := 128.   (* 0x80 *)
Definition hicb : Z := 191.   (* 0xBF *)

(** The entry of [utf8.first] for a lead byte, unpacked: [None] for an
    invalid byte, [Some (size, lo, hi)] otherwise, where [lo, hi] is the
    accepted range of the second byte.  Size 1 stands for ASCII. *)
Definition first (b : Z) : option (nat * Z * Z) :=
  if b <? 128 then Some (1%nat, 0, 0)
  else if b <? 194 then None                       (* 0x80-0xC1 *)
  else if b <? 224 then Some (2%nat, locb, hicb)   (* 0xC2-0xDF *)
  else if b =? 224 then Some (3%nat, 160, hicb)    (* 0xE0 *)
  else if b <? 237 then Some (3%nat, locb, hicb)   (* 0xE1-0xEC *)
  else if b =? 237 then Some (3%nat, locb, 159)    (* 0xED *)
  else if b <? 240 then Some (3%nat, locb, hicb)   (* 0xEE-0xEF *)
  else if b =? 240 then Some (4%nat, 144, hicb)    (* 0xF0 *)
  else if b <? 244 then Some (4%nat, locb, hicb)   (* 0xF1-0xF3 *)
  else if b =? 244 then Some (4%nat, locb, 143)    (* 0xF4 *)
  else None.                                       (* 0xF5-0xFF *)

Definition inRange (lo hi b : Z) : bool := (lo <=? b) && (b <=? hi).

Definition cont (b : Z) : Z := Z.land b 63.        (* b & maskx *)

(** [utf8.DecodeRuneInString]: the first rune of [s] and its width in
    bytes.  An invalid or truncated encoding yields [(RuneError, 1)], the
    empty string [(RuneError, 0)]. *)
Definition DecodeRuneInString (s : list Z) : rune * nat :=
  match s with
  | [] => (RuneError, 0%nat)
  | s0 :: t =>
      match first s0 with
      | None => (RuneError, 1%nat)
      | Some (sz, lo, hi) =>
          if (sz =? 1)%nat then (s0, 1%nat) else
          match t with
          | [] => (RuneError, 1%nat)
          | s1 :: t1 =>
              if negb (inRange lo hi s1) then (RuneError, 1%nat)
              else if (sz <=? 2)%nat
              then (Z.lor (Z.shiftl (Z.land s0 31) 6) (cont s1), 2%nat)
              else
                match t1 with
                | [] => (RuneError, 1%nat)
                | s2 :: t2 =>
                    if negb (inRange locb hicb s2) then (RuneError, 1%nat)
                    else if (sz <=? 3)%nat
                    then (Z.lor (Z.lor (Z.shiftl (Z.land s0 15) 12)
                                       (Z.shiftl (cont s1) 6)) (cont s2), 3%nat)
                    else
                      match t2 with
                      | [] => (RuneError, 1%nat)
                      | s3 :: _ =>
                          if negb (inRange locb hicb s3) then (RuneError, 1%nat)
                          else (Z.lor (Z.lor (Z.lor (Z.shiftl (Z.land s0 7) 18)
                                                    (Z.shiftl (cont s1) 12))
                                             (Z.shiftl (cont s2) 6)) (cont s3), 4%nat)
                      end
                end
          end
      end
  end.

(** The runes of a byte sequence, read front to back the way the regexp
    machine steps through its input.  The fuel is the number of bytes: every
    step consumes at least one. *)
Fixpoint decode (fuel : nat) (s : list Z) : list rune :=
  match fuel, s with
  | O, _ | _, [] => []
  | S fuel', _ :: _ =>
      let (r, w) := DecodeRuneInString s in
      r :: decode fuel' (skipn w s)
  end.

Definition runes (s : list Z) : list rune := decode (List.length s) s.

End Utf8.

Import Utf8.

(** ** The regular expressions of package [regexp], as far as [skipRe] uses them *)

Module Regexp.

(** The operators of [regexp/syntax] that the parse of the pattern
    contains.  A literal carries its [FoldCase] flag; a character class is a
    list of inclusive ranges. *)
Inductive Regexp : Type :=
| OpEmptyMatch
| OpLiteral (r : rune) (foldCase : bool)
| OpCharClass (ranges : list (rune * rune))
| OpBeginLine
| OpEndLine
| OpStar (sub : Regexp)
| OpConcat (sub1 sub2 : Regexp).

Definition concat (subs : list Regexp) : Regexp :=
  fold_right OpConcat OpEmptyMatch subs.

(** [unicode.SimpleFold] on the orbits of the ASCII letters: the next rune
    of the orbit, wrapping around to the smallest.  Two orbits have a third
    member, K k U+212A (Kelvin sign) and S s U+017F (long s).  Other runes
    are left alone; the pattern has no literal outside ASCII. *)
Definition SimpleFold (r : rune) : rune :=
  if (65 <=? r) && (r <=? 90) then r + 32          (* 'A'..'Z' *)
  else if r =? 107 then 8490                       (* 'k' -> U+212A *)
  else if r =? 115 then 383                        (* 's' -> U+017F *)
  else if (97 <=? r) && (r <=? 122) then r - 32    (* 'a'..'z' *)
  else if r =? 8490 then 75                        (* U+212A -> 'K' *)
  else if r =? 383 then 83                         (* U+017F -> 'S' *)
  else r.

(** The loop of [Inst.MatchRunePos] for a single rune with [FoldCase]:
    [for r1 := SimpleFold(r0); r1 != r0; r1 = SimpleFold(r1)]. *)
Fixpoint foldLoop (fuel : nat) (r0 r1 r : rune) : bool :=
  match fuel with
  | O => false
  | S n => if r1 =? r0 then false
           else (r =? r1) || foldLoop n r0 (SimpleFold r1) r
  end.

Definition matchRune (r0 : rune) (foldCase : bool) (r : rune) : bool :=
  (r =? r0) || (foldCase && foldLoop 4 r0 (SimpleFold r0) r).

Definition inClass (ranges : list (rune * rune)) (r : rune) : bool :=
  existsb (fun lh => (fst lh <=? r) && (r <=? snd lh)) ranges.

(** Perl's [\s] in RE2 syntax: [\t\n\f\r ]. *)
Definition perl_space : list (rune * rune) := [(9, 10); (12, 13); (32, 32)].

(** A position in the input is the rune before it, [None] at the
    beginning of the text, and the runes after it. *)
Definition isBeginLine (prev : option rune) : bool :=
  match prev with None => true | Some c => c =? 10 end.

Definition isEndLine (rest : list rune) : bool :=
  match rest with [] => true | c :: _ => c =? 10 end.

(** The loop of a star whose operand is matched by [step]: stop here, or
    match the operand once more and go round again.  An iteration that
    consumes nothing is not taken, so [length s] rounds are all there can
    be. *)
Fixpoint starLoop
         (step : option rune -> list rune -> (option rune -> list rune -> bool) -> bool)
         (k : option rune -> list rune -> bool)
         (fuel : nat) (prev : option rune) (s : list rune) : bool :=
  k prev s ||
  match fuel with
  | O => false
  | S n => step prev s
             (fun p t => (List.length t <? List.length s)%nat && starLoop step k n p t)
  end.

(** [accepts re prev s k]: some match of [re] starting at the position
    [(prev, s)] ends at a position that [k] accepts. *)
Fixpoint accepts (re : Regexp) (prev : option rune) (s : list rune)
         (k : option rune -> list rune -> bool) {struct re} : bool :=
  match re with
  | OpEmptyMatch => k prev s
  | OpLiteral r0 f =>
      match s with [] => false | c :: t => matchRune r0 f c && k (Some c) t end
  | OpCharClass rs =>
      match s with [] => false | c :: t => inClass rs c && k (Some c) t end
  | OpBeginLine => isBeginLine prev && k prev s
  | OpEndLine => isEndLine s && k prev s
  | OpConcat a b => accepts a prev s (fun p t => accepts b p t k)
  | OpStar a => starLoop (accepts a) k (List.length s) prev s
  end.

(** An unanchored search: a match may start at any position. *)
Fixpoint search (re : Regexp) (prev : option rune) (s : list rune) : bool :=
  accepts re prev s (fun _ _ => true) ||
  match s with [] => false | c :: t => search re (Some c) t end.

Definition MatchString (re : Regexp) (s : string) : bool :=
  search re None (runes (bytes s)).

End Regexp.

Import Regexp.

Definition litFold (a : ascii) : Regexp := OpLiteral (byteOf a) true.

(** [skipRe = regexp.MustCompile(`(?mi)^/skip\s*$`)]: with flag [m] the
    anchors are the line anchors, with flag [i] the literal folds case. *)
Definition skipRe : Regexp :=
  concat (OpBeginLine :: map litFold (list_ascii_of_string "/skip")
            ++ [OpStar (OpCharClass perl_space); OpEndLine])%list.


(** ** The records of packages [github] and [config] that the handler reads *)

Local Open Scope string_scope.

(** Go's [error] values: an error made from a message, or one that wraps
    another ([fmt.Errorf] with [%w]). *)
Inductive error : Type :=
| errorString (msg : string)
| wrapError (msg : string) (err : error).

Definition Error (err : error) : string :=
  match err with errorString msg | wrapError msg _ => msg end.

Module github.

Record User := { Login : string }.

Record Repo := { Owner : User; Name : string }.

Definition GenericCommentEventAction := string.

(** Modelled from the spec: the constant is declared in package [github];
    the spec names the action [created]. *)
Definition GenericCommentActionCreated : GenericCommentEventAction := "created".

(** The fields of [github.GenericCommentEvent] that [handle] reads; the
    fields [Repo] and [User] are [EventRepo] and [EventUser] here. *)
Record GenericCommentEvent := {
  IsPR : bool;
  IssueState : string;
  Action : GenericCommentEventAction;
  Body : string;
  HTMLURL : string;
  Number : Z;
  EventRepo : Repo;
  EventUser : User
}.

Record Status := { State : string; Description : string; Context : string }.

(** The field [State] of [github.CombinedStatus] is [CombinedState] here. *)
Record CombinedStatus := { CombinedState : string; Statuses : list Status }.

Record PullRequestBranch := { Ref : string; SHA : string }.

Record PullRequest := { Base : PullRequestBranch; Head : PullRequestBranch }.

(** Modelled from the spec: the state constants of package [github], which
    is not part of this file; the spec names the states [success],
    [pending], [failure] and [error]. *)
Definition StatusSuccess : string := "success".
Definition StatusPending : string := "pending".
Definition StatusFailure : string := "failure".
Definition StatusError : string := "error".

End github.

Module config.

(** Modelled from the spec: [config.Presubmit] is declared outside this
    file.  The handler reads [Name] and [Context] and calls
    [ContextRequired]; the spec gives a check a boolean [required], whether
    the check blocks merge, and that is what [ContextRequired] returns. *)
Record Presubmit := { Name : string; Context : string; required : bool }.

Definition ContextRequired (ps : Presubmit) : bool := required ps.

End config.

(** ** Calls on the collaborators *)

(** What [handle] asks of the outside world, with the type of the answer.  A
    Go result [(T, error)] is the sum [T + error], a result [error] is
    [option error] with [None] for [nil].

    [GetPresubmits] is [c.GetPresubmits(gitClient, identifier, baseBranch,
    baseSHAGetter, headSHAGetter)]: the two getters are closures, passed here
    as what they capture, the ref [baseSHAGetter] would resolve with
    [gc.GetRef] and the SHA [headSHAGetter] returns.  [FilterPresubmits] is
    [trigger.FilterPresubmits]; the client and the logger it receives are the
    handler's own. *)
Inductive call : Type -> Type :=
| GetPullRequest (org repo : string) (number : Z)
  : call (github.PullRequest + error)
| GetPresubmits (identifier baseBranch baseRef headSHA : string)
  : call (list config.Presubmit + error)
| GetCombinedStatus (org repo ref : string)
  : call (github.CombinedStatus + error)
| FilterPresubmits (honorOkToTest : bool) (body : string)
    (pr : github.PullRequest) (presubmits : list config.Presubmit)
  : call (list config.Presubmit + error)
| CreateStatus (org repo ref : string) (s : github.Status)
  : call (option error)
| CreateComment (owner repo : string) (number : Z) (comment : string)
  : call (option error)
| Warn (msg : string)
  : call unit.

(** A program is a finite tree: it returns, or makes a call and goes on with
    the answer. *)
Inductive prog (A : Type) : Type :=
| Ret (a : A)
| Call (X : Type) (c : call X) (k : X -> prog A).

Arguments Ret {A} a.
Arguments Call {A X} c k.

Fixpoint bind {A B : Type} (p : prog A) (f : A -> prog B) : prog B :=
  match p with
  | Ret a => f a
  | Call c k => Call c (fun x => bind (k x) f)
  end.

Definition perform {X : Type} (c : call X) : prog X := Call c Ret.

Notation "x <- p ;; q" := (bind p (fun x => q))
  (at level 61, p at next level, right associativity).
Notation "p ;; q" := (bind p (fun _ => q))
  (at level 61, right associativity).

(** A [for ... range] loop whose body may [continue] or [return]. *)
Inductive flow (R : Type) : Type :=
| Continue
| Return (r : R).

Arguments Continue {R}.
Arguments Return {R} r.

Fixpoint forRange {T R : Type} (xs : list T) (body : T -> prog (flow R))
         (after : prog R) : prog R :=
  match xs with
  | [] => after
  | x :: rest =>
      f <- body x;;
      match f with
      | Continue => forRange rest body after
      | Return r => Ret r
      end
  end.

(** *** Runs *)

(** One call together with the answer it got. *)
Inductive event : Type :=
| EvGetPullRequest (org repo : string) (number : Z)
    (res : github.PullRequest + error)
| EvGetPresubmits (identifier baseBranch baseRef headSHA : string)
    (res : list config.Presubmit + error)
| EvGetCombinedStatus (org repo ref : string)
    (res : github.CombinedStatus + error)
| EvFilterPresubmits (honorOkToTest : bool) (body : string)
    (pr : github.PullRequest) (presubmits : list config.Presubmit)
    (res : list config.Presubmit + error)
| EvCreateStatus (org repo ref : string) (s : github.Status)
    (res : option error)
| EvCreateComment (owner repo : string) (number : Z) (comment : string)
    (res : option error)
| EvWarn (msg : string).

Definition Ev {X : Type} (c : call X) : X -> event :=
  match c in call X return X -> event with
  | GetPullRequest org repo number => EvGetPullRequest org repo number
  | GetPresubmits i bb br hs => EvGetPresubmits i bb br hs
  | GetCombinedStatus org repo ref => EvGetCombinedStatus org repo ref
  | FilterPresubmits h body pr ps => EvFilterPresubmits h body pr ps
  | CreateStatus org repo ref s => EvCreateStatus org repo ref s
  | CreateComment owner repo number comment =>
      EvCreateComment owner repo number comment
  | Warn msg => fun _ => EvWarn msg
  end.

(** [runs p tr a]: the program [p] can make the calls of [tr], get the
    answers recorded there, and return [a].  The answers are arbitrary. *)
Fixpoint runs {A : Type} (p : prog A) (tr : list event) (a : A) : Prop :=
  match p with
  | Ret a' => tr = [] /\ a' = a
  | Call c k => exists x tr', tr = Ev c x :: tr' /\ runs (k x) tr' a
  end.

(** A collaborator with a state of its own answers every call. *)
Definition oracle (S : Type) : Type := forall X : Type, call X -> S -> X * S.

Fixpoint run {S A : Type} (o : oracle S) (p : prog A) (st : S)
  : list event * A * S :=
  match p with
  | Ret a => ([], a, st)
  | Call c k =>
      let (x, st') := o _ c st in
      let '(tr, a, st'') := run o (k x) st' in
      (Ev c x :: tr, a, st'')
  end.

(** The status writes of a trace, in order, each with its outcome. *)
Fixpoint statusWrites (tr : list event) : list (github.Status * option error) :=
  match tr with
  | [] => []
  | EvCreateStatus _ _ _ s res :: tr' => (s, res) :: statusWrites tr'
  | _ :: tr' => statusWrites tr'
  end.

(** ** The handler *)

Import github config.

(** [%d] of [fmt.Sprintf]. *)
Definition itoa (n : Z) : string := NilZero.string_of_int (Z.to_int n).

(** [fmt.Errorf(msg + ": %w", err)]. *)
Definition Errorf (msg : string) (err : error) : error :=
  wrapError (msg ++ ": " ++ Error err) err.

Fixpoint statusExists (job : Presubmit) (statuses : list Status) : bool :=
  match statuses with
  | [] => false
  | status :: rest =>
      if github.Context status =? config.Context job then true
      else statusExists job rest
  end.

Fixpoint isSuccess (job : Presubmit) (statuses : list Status) : bool :=
  match statuses with
  | [] => false
  | status :: rest =>
      if (github.Context status =? config.Context job)
         && (State status =? StatusSuccess) then true
      else isSuccess job rest
  end.

(** The closure [triggerWillHandle] of [handle], with the list it captures. *)
Fixpoint triggerWillHandle (filteredPresubmits : list Presubmit) (p : Presubmit)
  : bool :=
  match filteredPresubmits with
  | [] => false
  | presubmit :: rest =>
      if (config.Name p =? config.Name presubmit)
         && (config.Context p =? config.Context presubmit) then true
      else triggerWillHandle rest p
  end.

Section Handler.

(** [plugins.FormatResponseRaw(body, bodyURL, login, reply)] formats the
    text of a reply; it belongs to package [plugins]. *)
Variable FormatResponseRaw : string -> string -> string -> string -> string.

Section Invocation.

Variable e : GenericCommentEvent.

Let org := Login (Owner (EventRepo e)).
Let repo := github.Name (EventRepo e).
Let number := Number e.

(** The three-line idiom of every failure that is reported to the user:
    [log.Warn(resp)], then
    [return gc.CreateComment(org, repo, number,
    plugins.FormatResponseRaw(e.Body, e.HTMLURL, e.User.Login, resp))]. *)
Definition respond (resp : string) : prog (option error) :=
  perform (Warn resp);;
  perform (CreateComment org repo number
             (FormatResponseRaw (Body e) (HTMLURL e) (Login (EventUser e)) resp)).

(** The status [handle] writes for a job it skips. *)
Definition skipped (job : Presubmit) : Status :=
  {| State := StatusSuccess;
     Description := "Skipped";
     github.Context := config.Context job |}.

(** The body of the loop over [presubmits]. *)
Definition loopBody (pr : PullRequest) (statuses : list Status)
           (filteredPresubmits : list Presubmit) (job : Presubmit)
  : prog (flow (option error)) :=
  (* Only consider jobs that have already posted a failed status *)
  if negb (statusExists job statuses) || isSuccess job statuses
  then Ret Continue
  (* Ignore jobs that will be handled by the trigger plugin *)
  else if triggerWillHandle filteredPresubmits job
  then Ret Continue
  (* Only skip jobs that are not required *)
  else if ContextRequired job
  then Ret Continue
  else
    let context := config.Context job in
    let status := skipped job in
    r <- perform (CreateStatus org repo (SHA (Head pr)) status);;
    match r with
    | Some err =>
        let resp := "Cannot update PR status for context " ++ context
                    ++ ": " ++ Error err in
        r' <- respond resp;;
        Ret (Return r')
    | None => Ret Continue
    end.

Definition handle (honorOkToTest : bool) : prog (option error) :=
  if negb (IsPR e) || negb (IssueState e =? "open")
     || negb (Action e =? GenericCommentActionCreated)
  then Ret None
  else if negb (MatchString skipRe (Body e))
  then Ret None
  else
    r <- perform (GetPullRequest org repo number);;
    match r with
    | inr err =>
        respond ("Cannot get PR #" ++ itoa number ++ " in " ++ org ++ "/"
                 ++ repo ++ ": " ++ Error err)
    | inl pr =>
        r <- perform (GetPresubmits (org ++ "/" ++ repo) ""
                        ("heads/" ++ Ref (Base pr)) (SHA (Head pr)));;
        match r with
        | inr err => Ret (Some (Errorf "failed to get presubmits" err))
        | inl presubmits =>
            r <- perform (GetCombinedStatus org repo (SHA (Head pr)));;
            match r with
            | inr err =>
                respond ("Cannot get combined commit statuses for PR #"
                         ++ itoa number ++ " in " ++ org ++ "/" ++ repo
                         ++ ": " ++ Error err)
            | inl combinedStatus =>
                if CombinedState combinedStatus =? StatusSuccess
                then Ret None
                else
                  let statuses := Statuses combinedStatus in
                  r <- perform (FilterPresubmits honorOkToTest (Body e)
                                  pr presubmits);;
                  match r with
                  | inr err =>
                      respond ("Cannot get combined status for PR #"
                               ++ itoa number ++ " in " ++ org ++ "/"
                               ++ repo ++ ": " ++ Error err)
                  | inl filteredPresubmits =>
                      forRange presubmits
                        (loopBody pr statuses filteredPresubmits)
                        (Ret None)
                  end
            end
        end
    end.

End Invocation.

End Handler.


(** ** Vocabulary of the statements *)

(** *** Lines of a comment body *)

Local Open Scope Z_scope.

(** A number with a bit set above the low four is not a line feed. *)
Definition high (r : Z) : Prop := exists n, 4 <= n /\ Z.testbit r n = true.

(** The lines of a sequence of bytes or of runes: the pieces between line
    feeds, as [strings.Split(s, "\n")] cuts them. *)
Fixpoint lines (s : list Z) : list (list Z) :=
  match s with
  | [] => [[]]
  | c :: t =>
      if c =? 10 then [] :: lines t
      else match lines t with
           | l :: ls => (c :: l) :: ls
           | [] => [[c]]
           end
  end.

(** White space that can trail on a line: [\s] without the line feed. *)
Definition isBlank (c : rune) : bool :=
  (c =? 9) || (c =? 12) || (c =? 13) || (c =? 32).

(** The runes that count as [/], [s], [k], [i], [p] when case is ignored:
    lower case, upper case and, for [s] and [k], the long s and the Kelvin
    sign. *)
Definition caseVariants : list (list rune) :=
  [[47]; [115; 83; 383]; [107; 75; 8490]; [105; 73]; [112; 80]].

(** A line that consists of the command, with at most blanks after it. *)
Definition isSkipLine (l : list rune) : Prop :=
  exists cmd ws,
    l = (cmd ++ ws)%list
    /\ Forall2 (fun vs c => In c vs) caseVariants cmd
    /\ Forall (fun c => isBlank c = true) ws.

Fixpoint stripPrefix (vss : list (list rune)) (l : list rune)
  : option (list rune) :=
  match vss, l with
  | [], _ => Some l
  | vs :: vss', c :: t =>
      if existsb (Z.eqb c) vs then stripPrefix vss' t else None
  | _ :: _, [] => None
  end.

Definition skipLineb (l : list rune) : bool :=
  match stripPrefix caseVariants l with
  | Some ws => forallb isBlank ws
  | None => false
  end.

(** What is left of the pattern after the command: white space up to the
    end of a line. *)
Fixpoint trail (s : list rune) : bool :=
  match s with
  | [] => true
  | c :: t => (c =? 10) || (isBlank c && trail t)
  end.

(** The pattern tried at one position, past the line anchor. *)
Definition skipHere (s : list rune) : bool :=
  match stripPrefix caseVariants s with
  | Some rest => trail rest
  | None => false
  end.

(** The line feed, as a string. *)
Definition nl : string := String "010" EmptyString.

(** *** The gate *)

(** The four conditions under which the comment is a command for this
    plugin. *)
Definition isCommand (e : GenericCommentEvent) : Prop :=
  IsPR e = true
  /\ IssueState e = "open"%string
  /\ Action e = GenericCommentActionCreated
  /\ exists l, In l (lines (bytes (Body e))) /\ isSkipLine (runes l).

(** *** The checks that are skipped *)

(** The pairs that the trigger plugin will handle. *)
Definition overlap (filteredPresubmits : list Presubmit) : list (string * string) :=
  map (fun p => (config.Name p, config.Context p)) filteredPresubmits.

(** A check is skipped when it has a status entry, no status entry of its
    context reports success, the trigger plugin will not handle it, and it is
    not required. *)
Definition Eligible (statuses : list Status) (over : list (string * string))
           (job : Presubmit) : Prop :=
  (exists st, In st statuses /\ github.Context st = config.Context job)
  /\ ~ (exists st, In st statuses /\ github.Context st = config.Context job
                   /\ State st = StatusSuccess)
  /\ ~ In (config.Name job, config.Context job) over
  /\ required job = false.

Definition eligible (statuses : list Status) (filteredPresubmits : list Presubmit)
           (job : Presubmit) : bool :=
  existsb (fun st => (github.Context st =? config.Context job)%string) statuses
  && negb (existsb (fun st => (github.Context st =? config.Context job)%string
                              && (State st =? StatusSuccess)%string) statuses)
  && negb (existsb (fun p => (config.Name job =? config.Name p)%string
                             && (config.Context job =? config.Context p)%string)
                   filteredPresubmits)
  && negb (required job).

(** *** Traces of the handler *)

Definition org (e : GenericCommentEvent) : string := Login (Owner (EventRepo e)).
Definition repo (e : GenericCommentEvent) : string := github.Name (EventRepo e).

(** The answers of the collaborators that resolve the inputs of the loop. *)
Definition fetches (e : GenericCommentEvent) (honorOkToTest : bool)
           (pr : PullRequest) (presubmits : list Presubmit)
           (cs : CombinedStatus) (filteredPresubmits : list Presubmit)
  : list event :=
  [ EvGetPullRequest (org e) (repo e) (Number e) (inl pr);
    EvGetPresubmits (org e ++ "/" ++ repo e)%string ""%string
      ("heads/" ++ Ref (Base pr))%string (SHA (Head pr)) (inl presubmits);
    EvGetCombinedStatus (org e) (repo e) (SHA (Head pr)) (inl cs);
    EvFilterPresubmits honorOkToTest (Body e) pr presubmits
      (inl filteredPresubmits) ].

(** The write of the status of a skipped job, with its outcome. *)
Definition statusWrite (e : GenericCommentEvent) (pr : PullRequest)
           (res : option error) (job : Presubmit) : event :=
  EvCreateStatus (org e) (repo e) (SHA (Head pr)) (skipped job) res.

(** The trace of [respond]: the warning in the log and the comment on the
    pull request, with the outcome of posting it. *)
Definition reported (FormatResponseRaw : string -> string -> string -> string -> string)
           (e : GenericCommentEvent) (resp : string) (res : option error)
  : list event :=
  [ EvWarn resp;
    EvCreateComment (org e) (repo e) (Number e)
      (FormatResponseRaw (Body e) (HTMLURL e) (Login (EventUser e)) resp) res ].

(** The failure of one of the three fetches that are reported to the
    user. *)
Inductive fetchFailure (err : error) : event -> Prop :=
| failedPullRequest o r n :
    fetchFailure err (EvGetPullRequest o r n (inr err))
| failedCombinedStatus o r ref :
    fetchFailure err (EvGetCombinedStatus o r ref (inr err))
| failedFilterPresubmits h body pr ps :
    fetchFailure err (EvFilterPresubmits h body pr ps (inr err)).

(** The text of the reply when a fetch failed: what could not be fetched,
    for which pull request, and the error. *)
Definition cannot (what : string) (e : GenericCommentEvent) (err : error)
  : string :=
  (what ++ itoa (Number e) ++ " in " ++ org e ++ "/" ++ repo e ++ ": "
        ++ Error err)%string.

(** The text of the reply when the status of a job could not be written. *)
Definition cannotUpdate (job : Presubmit) (err : error) : string :=
  ("Cannot update PR status for context " ++ config.Context job ++ ": "
     ++ Error err)%string.

(** The runs of the loop of [handle] over the jobs: a job that is not
    eligible leaves no trace; the status of an eligible job is written; when
    the write fails, the failure is reported and the loop is left with the
    outcome of the report. *)
Inductive looped (FormatResponseRaw : string -> string -> string -> string -> string)
          (e : GenericCommentEvent) (pr : PullRequest) (statuses : list Status)
          (filteredPresubmits : list Presubmit)
  : list Presubmit -> list event -> option error -> Prop :=
| looped_nil :
    looped FormatResponseRaw e pr statuses filteredPresubmits [] [] None
| looped_continue job rest tr r :
    eligible statuses filteredPresubmits job = false ->
    looped FormatResponseRaw e pr statuses filteredPresubmits rest tr r ->
    looped FormatResponseRaw e pr statuses filteredPresubmits (job :: rest) tr r
| looped_write job rest tr r :
    eligible statuses filteredPresubmits job = true ->
    looped FormatResponseRaw e pr statuses filteredPresubmits rest tr r ->
    looped FormatResponseRaw e pr statuses filteredPresubmits (job :: rest)
           (statusWrite e pr None job :: tr) r
| looped_abort job rest err r :
    eligible statuses filteredPresubmits job = true ->
    looped FormatResponseRaw e pr statuses filteredPresubmits (job :: rest)
           (statusWrite e pr (Some err) job
              :: reported FormatResponseRaw e (cannotUpdate job err) r) r.

(** The runs of [handle], path by path. *)
Inductive handled (FormatResponseRaw : string -> string -> string -> string -> string)
          (e : GenericCommentEvent) (honorOkToTest : bool)
  : list event -> option error -> Prop :=
| handled_ignored :
    ~ isCommand e ->
    handled FormatResponseRaw e honorOkToTest [] None
| handled_no_pr err r :
    isCommand e ->
    handled FormatResponseRaw e honorOkToTest
      (EvGetPullRequest (org e) (repo e) (Number e) (inr err)
         :: reported FormatResponseRaw e (cannot "Cannot get PR #" e err) r) r
| handled_no_presubmits pr err :
    isCommand e ->
    handled FormatResponseRaw e honorOkToTest
      [ EvGetPullRequest (org e) (repo e) (Number e) (inl pr);
        EvGetPresubmits (org e ++ "/" ++ repo e)%string ""%string
          ("heads/" ++ Ref (Base pr))%string (SHA (Head pr)) (inr err) ]
      (Some (Errorf "failed to get presubmits" err))
| handled_no_status pr ps err r :
    isCommand e ->
    handled FormatResponseRaw e honorOkToTest
      (EvGetPullRequest (org e) (repo e) (Number e) (inl pr)
         :: EvGetPresubmits (org e ++ "/" ++ repo e)%string ""%string
              ("heads/" ++ Ref (Base pr))%string (SHA (Head pr)) (inl ps)
         :: EvGetCombinedStatus (org e) (repo e) (SHA (Head pr)) (inr err)
         :: reported FormatResponseRaw e
              (cannot "Cannot get combined commit statuses for PR #" e err) r) r
| handled_success pr ps cs :
    isCommand e ->
    CombinedState cs = StatusSuccess ->
    handled FormatResponseRaw e honorOkToTest
      [ EvGetPullRequest (org e) (repo e) (Number e) (inl pr);
        EvGetPresubmits (org e ++ "/" ++ repo e)%string ""%string
          ("heads/" ++ Ref (Base pr))%string (SHA (Head pr)) (inl ps);
        EvGetCombinedStatus (org e) (repo e) (SHA (Head pr)) (inl cs) ]
      None
| handled_no_overlap pr ps cs err r :
    isCommand e ->
    CombinedState cs <> StatusSuccess ->
    handled FormatResponseRaw e honorOkToTest
      (EvGetPullRequest (org e) (repo e) (Number e) (inl pr)
         :: EvGetPresubmits (org e ++ "/" ++ repo e)%string ""%string
              ("heads/" ++ Ref (Base pr))%string (SHA (Head pr)) (inl ps)
         :: EvGetCombinedStatus (org e) (repo e) (SHA (Head pr)) (inl cs)
         :: EvFilterPresubmits honorOkToTest (Body e) pr ps (inr err)
         :: reported FormatResponseRaw e
              (cannot "Cannot get combined status for PR #" e err) r) r
| handled_loop pr ps cs fs tr r :
    isCommand e ->
    CombinedState cs <> StatusSuccess ->
    looped FormatResponseRaw e pr (Statuses cs) fs ps tr r ->
    handled FormatResponseRaw e honorOkToTest
      (fetches e honorOkToTest pr ps cs fs ++ tr)%list r.

(** *** A pull request to try the handler on *)

Module Sample.

Local Open Scope string_scope.

(** A stand-in for [plugins.FormatResponseRaw]: the author and the reply. *)
Definition plainResponse (body bodyURL login reply : string) : string :=
  "@" ++ login ++ ": " ++ reply.

Definition comment (body : string) : GenericCommentEvent :=
  {| IsPR := true;
     IssueState := "open";
     Action := GenericCommentActionCreated;
     Body := body;
     HTMLURL := "https://github.com/org/repo/pull/7#issuecomment-1";
     Number := 7;
     EventRepo := {| Owner := {| Login := "org" |}; github.Name := "repo" |};
     EventUser := {| Login := "alice" |} |}.

Definition skipComment : GenericCommentEvent := comment "/skip".

Definition pr7 : PullRequest :=
  {| Base := {| Ref := "main"; SHA := "b0" |};
     Head := {| Ref := "feature"; SHA := "h1" |} |}.

(** The checks and statuses of scenario A of the spec. *)
Definition unit : Presubmit :=
  {| config.Name := "unit"; config.Context := "ci/unit"; required := true |}.
Definition lint : Presubmit :=
  {| config.Name := "lint"; config.Context := "ci/lint"; required := false |}.
Definition flaky : Presubmit :=
  {| config.Name := "flaky"; config.Context := "ci/flaky"; required := false |}.
Definition docs : Presubmit :=
  {| config.Name := "docs"; config.Context := "ci/docs"; required := false |}.

Definition failed (context : string) : Status :=
  {| State := StatusFailure; Description := "Job failed.";
     github.Context := context |}.
Definition passed (context : string) : Status :=
  {| State := StatusSuccess; Description := "Job succeeded.";
     github.Context := context |}.

Definition failing : CombinedStatus :=
  {| CombinedState := StatusFailure;
     Statuses := [failed "ci/unit"; failed "ci/lint"] |}.

Definition green : CombinedStatus :=
  {| CombinedState := StatusSuccess;
     Statuses := [passed "ci/unit"; failed "ci/lint"] |}.

(** Two reports for the context of [lint], one of them a success. *)
Definition twice : CombinedStatus :=
  {| CombinedState := StatusFailure;
     Statuses := [failed "ci/unit"; passed "ci/lint"; failed "ci/lint"] |}.

Definition boom : error := errorString "boom".

(** What the collaborators answer, and which calls fail. *)
Record answers := {
  presubmits : list Presubmit;
  combined : CombinedStatus;
  filtered : list Presubmit;
  failPullRequest : bool;
  failStatus : bool;
  failWrite : option nat;
  failComment : bool
}.

(** A collaborator that answers from [answers]; its state is the number of
    status writes so far, and the write with the number [failWrite], counted
    from 0, fails. *)
Definition collaborator (a : answers) : oracle nat :=
  fun X c st =>
    match c in call X return X * nat with
    | GetPullRequest _ _ _ =>
        (if failPullRequest a then inr boom else inl pr7, st)
    | GetPresubmits _ _ _ _ => (inl (presubmits a), st)
    | GetCombinedStatus _ _ _ =>
        (if failStatus a then inr boom else inl (combined a), st)
    | FilterPresubmits _ _ _ _ => (inl (filtered a), st)
    | CreateStatus _ _ _ _ =>
        (match failWrite a with
         | Some n => if (n =? st)%nat then Some boom else None
         | None => None
         end, S st)
    | CreateComment _ _ _ _ => (if failComment a then Some boom else None, st)
    | Warn _ => (tt, st)
    end.

Definition scenarioA : answers :=
  {| presubmits := [unit; lint]; combined := failing; filtered := [];
     failPullRequest := false; failStatus := false; failWrite := None;
     failComment := false |}.

(** Scenario B: the trigger plugin will run [lint]. *)
Definition scenarioB : answers :=
  {| presubmits := [unit; lint]; combined := failing; filtered := [lint];
     failPullRequest := false; failStatus := false; failWrite := None;
     failComment := false |}.

(** Scenario C: the combined status is a success. *)
Definition scenarioC : answers :=
  {| presubmits := [unit; lint]; combined := green; filtered := [];
     failPullRequest := false; failStatus := false; failWrite := None;
     failComment := false |}.

(** Scenario D: a check that never posted a status. *)
Definition scenarioD : answers :=
  {| presubmits := [flaky];
     combined := {| CombinedState := StatusPending; Statuses := [] |};
     filtered := [];
     failPullRequest := false; failStatus := false; failWrite := None;
     failComment := false |}.

(** Scenario A with two more checks to skip; the second write fails. *)
Definition writeFails : answers :=
  {| presubmits := [unit; lint; flaky; docs];
     combined := {| CombinedState := StatusFailure;
                    Statuses := [failed "ci/unit"; failed "ci/lint";
                                 failed "ci/flaky"; failed "ci/docs"] |};
     filtered := [];
     failPullRequest := false; failStatus := false; failWrite := Some 1%nat;
     failComment := false |}.

(** The pull request cannot be fetched; the comment that says so is
    posted. *)
Definition noPullRequest : answers :=
  {| presubmits := [unit; lint]; combined := failing; filtered := [];
     failPullRequest := true; failStatus := false; failWrite := None;
     failComment := false |}.

(** Scenario A with two reports for [lint], one of them a success. *)
Definition reportedTwice : answers :=
  {| presubmits := [unit; lint]; combined := twice; filtered := [];
     failPullRequest := false; failStatus := false; failWrite := None;
     failComment := false |}.

(** The handler on an event, with these answers: the trace and the
    result. *)
Definition outcome (a : answers) (e : GenericCommentEvent)
  : list event * option error :=
  fst (run (collaborator a) (handle plainResponse e false) 0%nat).

End Sample.

(** ** The entry point *)

Section Agent.

(** [plugins.FormatResponseRaw], as for [handle]. *)
Variable FormatResponseRaw : string -> string -> string -> string -> string.

(** [plugins.Configuration] and [plugins.Trigger], with the two functions of
    packages [plugins] and [trigger] that read them:
    [pc.PluginConfig.TriggerFor(org, repo)] and [trigger.HonorOkToTest]. *)
Variable Configuration : Type.
Variable Trigger : Type.
Variable TriggerFor : Configuration -> string -> string -> Trigger.
Variable HonorOkToTest : Trigger -> bool.

(** [handleGenericComment(pc, e)].  Of the agent [pc] the plugin
    configuration is a value; its client, logger, configuration and git
    client are the collaborators that answer the calls of [handle]. *)
Definition handleGenericComment (pluginConfig : Configuration)
           (e : GenericCommentEvent) : prog (option error) :=
  let honorOkToTest :=
    HonorOkToTest (TriggerFor pluginConfig (Login (Owner (EventRepo e)))
                              (github.Name (EventRepo e))) in
  handle FormatResponseRaw e honorOkToTest.

End Agent.

(** *** More vocabulary *)

(** An event with another flag in the request to [trigger.FilterPresubmits];
    the other events are left alone. *)
Definition setHonor (h : bool) (ev : event) : event :=
  match ev with
  | EvFilterPresubmits _ body pr ps res => EvFilterPresubmits h body pr ps res
  | _ => ev
  end.

(** A call that did not fail. *)
Definition succeeded (ev : event) : Prop :=
  match ev with
  | EvGetPullRequest _ _ _ (inr _)
  | EvGetPresubmits _ _ _ _ (inr _)
  | EvGetCombinedStatus _ _ _ (inr _)
  | EvFilterPresubmits _ _ _ _ (inr _)
  | EvCreateStatus _ _ _ _ (Some _)
  | EvCreateComment _ _ _ _ (Some _) => False
  | _ => True
  end.

(** A warning in the log or a comment on the pull request. *)
Definition isReport (ev : event) : Prop :=
  match ev with
  | EvWarn _ | EvCreateComment _ _ _ _ _ => True
  | _ => False
  end.

Definition isComment (ev : event) : Prop :=
  match ev with
  | EvCreateComment _ _ _ _ _ => True
  | _ => False
  end.

(** The contexts of the statuses that a trace writes, in order. *)
Definition writtenContexts (tr : list event) : list string :=
  map (fun w => github.Context (fst w)) (statusWrites tr).

(** A plugin configuration for the entry point: the repositories, by
    organisation and name, in which [/ok-to-test] is honoured. *)
Module SampleAgent.

Definition configuration : Type := list (string * string).

Definition triggerFor (c : configuration) (org repo : string) : bool :=
  existsb (fun p => (fst p =? org)%string && (snd p =? repo)%string) c.

Definition honorOkToTest (t : bool) : bool := t.

Definition entry (c : configuration) (e : GenericCommentEvent)
  : prog (option error) :=
  handleGenericComment Sample.plainResponse triggerFor honorOkToTest c e.

End SampleAgent.

(** Answers with which the pull request cannot be fetched and the comment
    that says so cannot be posted either. *)
Module Failures.

Definition commentFails : Sample.answers :=
  {| Sample.presubmits := [Sample.unit; Sample.lint];
     Sample.combined := Sample.failing;
     Sample.filtered := [];
     Sample.failPullRequest := true;
     Sample.failStatus := false;
     Sample.failWrite := None;
     Sample.failComment := true |}.

(** The statuses of scenario A after [/skip]: the latest report of a context
    replaces the earlier one. *)
Definition afterSkip : list Status :=
  [Sample.failed "ci/unit"; skipped Sample.lint].

End Failures.

(** ** Decoding and lines *)

Section Decoding.

Lemma high_ne_10 (r : Z) : high r -> r <> 10.
Proof.
  intros (n & Hn & Hb) ->.
  rewrite Z.bits_above_log2 in Hb; [discriminate | lia | simpl; lia].
Qed.

Lemma high_shiftl (a k : Z) : 0 < a -> 4 <= k -> high (Z.shiftl a k).
Proof.
  intros Ha Hk. exists (Z.log2 a + k). split.
  - pose proof (Z.log2_nonneg a). lia.
  - rewrite Z.shiftl_spec_alt by lia. apply Z.bit_log2. lia.
Qed.

Lemma high_lor_l (a b : Z) : high a -> high (Z.lor a b).
Proof.
  intros (n & Hn & Hb). exists n. split; [lia|].
  rewrite Z.lor_spec, Hb. reflexivity.
Qed.

Lemma high_lor_r (a b : Z) : high b -> high (Z.lor a b).
Proof.
  intros (n & Hn & Hb). exists n. split; [lia|].
  rewrite Z.lor_spec, Hb. apply orb_true_r.
Qed.

Lemma land_low (b n : Z) (k : Z) :
  0 <= k -> n = Z.ones k -> Z.land b n = b mod 2 ^ k.
Proof. intros Hk ->. now apply Z.land_ones. Qed.

(** The table [first], read back. *)
Lemma first_Some (b : Z) (sz : nat) (lo hi : Z) :
  first b = Some (sz, lo, hi) ->
  (sz = 1%nat /\ b < 128)
  \/ (sz = 2%nat /\ 194 <= b < 224 /\ 128 <= lo /\ hi <= 191)
  \/ (sz = 3%nat /\ 224 <= b < 240 /\ 128 <= lo /\ hi <= 191
      /\ (b = 224 -> lo = 160))
  \/ (sz = 4%nat /\ 240 <= b <= 244 /\ 128 <= lo /\ hi <= 191
      /\ (b = 240 -> lo = 144)).
Proof.
  unfold first, locb, hicb.
  repeat match goal with
         | |- context [if ?c then _ else _] => destruct c eqn:?
         end;
    intros [= <- <- <-] || discriminate;
    rewrite ?Z.ltb_lt, ?Z.ltb_ge, ?Z.eqb_eq, ?Z.eqb_neq in *;
    intuition lia.
Qed.

Lemma inRange_bounds (lo hi b : Z) :
  inRange lo hi b = true -> lo <= b <= hi.
Proof. unfold inRange. rewrite andb_true_iff, !Z.leb_le. tauto. Qed.

Lemma cont_mod (b : Z) : cont b = b mod 64.
Proof. unfold cont. now rewrite (@land_low b 63 6). Qed.

(** Only the byte 10 decodes to the rune 10. *)
Lemma Decode_fst_nl (s0 : Z) (t : list Z) :
  fst (DecodeRuneInString (s0 :: t)) = 10 -> s0 = 10.
Proof.
  unfold DecodeRuneInString.
  destruct (first s0) as [[[sz lo] hi]|] eqn:F; [|discriminate].
  apply first_Some in F.
  destruct (sz =? 1)%nat eqn:E1; [trivial|].
  apply Nat.eqb_neq in E1.
  destruct t as [|s1 t1]; [discriminate|].
  destruct (inRange lo hi s1) eqn:R1; cbn [negb]; [|discriminate].
  apply inRange_bounds in R1.
  assert (0 < Z.land s0 31 \/ sz <> 2%nat) as H2.
  { destruct F as [F|[F|[F|F]]]; try (right; lia).
    left. rewrite (@land_low s0 31 5) by (lia || reflexivity).
    change (2 ^ 5) with 32. Z.to_euclidean_division_equations. lia. }
  assert (0 < Z.land s0 15 \/ 0 < cont s1 \/ sz <> 3%nat) as H3.
  { destruct F as [F|[F|[F|F]]]; try (right; right; lia).
    rewrite cont_mod, (@land_low s0 15 4) by (lia || reflexivity).
    change (2 ^ 4) with 16.
    destruct (Z.eq_dec s0 224) as [->|N].
    - right; left. Z.to_euclidean_division_equations. lia.
    - left. Z.to_euclidean_division_equations. lia. }
  assert (0 < Z.land s0 7 \/ 0 < cont s1 \/ (sz <= 3)%nat) as H4.
  { destruct F as [F|[F|[F|F]]]; try (right; right; lia).
    rewrite cont_mod, (@land_low s0 7 3) by (lia || reflexivity).
    change (2 ^ 3) with 8.
    destruct (Z.eq_dec s0 240) as [->|N].
    - right; left. Z.to_euclidean_division_equations. lia.
    - left. Z.to_euclidean_division_equations. lia. }
  assert (2 <= sz <= 4)%nat as Hsz by lia. clear F E1.
  destruct (sz <=? 2)%nat eqn:E2.
  { apply Nat.leb_le in E2. cbn [fst]. intros H. exfalso. revert H.
    apply high_ne_10, high_lor_l, high_shiftl; lia. }
  apply Nat.leb_gt in E2.
  destruct t1 as [|s2 t2]; [discriminate|].
  destruct (inRange locb hicb s2); cbn [negb]; [|discriminate].
  destruct (sz <=? 3)%nat eqn:E3.
  { apply Nat.leb_le in E3. cbn [fst]. intros H. exfalso. revert H.
    apply high_ne_10, high_lor_l.
    destruct H3 as [H3|[H3|H3]]; [| |lia].
    - apply high_lor_l, high_shiftl; lia.
    - apply high_lor_r, high_shiftl; lia. }
  apply Nat.leb_gt in E3.
  destruct t2 as [|s3 t3]; [discriminate|].
  destruct (inRange locb hicb s3); cbn [negb]; [|discriminate].
  cbn [fst]. intros H. exfalso. revert H.
  apply high_ne_10, high_lor_l, high_lor_l.
  destruct H4 as [H4|[H4|H4]]; [| |lia].
  - apply high_lor_l, high_shiftl; lia.
  - apply high_lor_r, high_shiftl; lia.
Qed.

Lemma Decode_width (s0 : Z) (t : list Z) :
  (1 <= snd (DecodeRuneInString (s0 :: t)) <= List.length (s0 :: t))%nat.
Proof.
  unfold DecodeRuneInString.
  repeat match goal with
         | |- context [match ?x with _ => _ end] => destruct x
         end; cbn [snd List.length]; lia.
Qed.

(** A line feed after a truncated encoding is read like the end of the
    input: it is no continuation byte. *)
Lemma Decode_app_nl (s0 : Z) (a b : list Z) :
  DecodeRuneInString ((s0 :: a) ++ 10 :: b) = DecodeRuneInString (s0 :: a).
Proof.
  unfold DecodeRuneInString. cbn [app].
  destruct (first s0) as [[[sz lo] hi]|] eqn:F; [|reflexivity].
  apply first_Some in F.
  destruct (sz =? 1)%nat eqn:E1; [reflexivity|].
  apply Nat.eqb_neq in E1.
  assert (inRange lo hi 10 = false) as R.
  { unfold inRange. apply andb_false_iff. left. apply Z.leb_gt.
    destruct F as [F|[F|[F|F]]]; lia. }
  destruct a as [|s1 a1]; cbn [app]; [now rewrite R|].
  destruct (inRange lo hi s1); cbn [negb]; [|reflexivity].
  destruct (sz <=? 2)%nat; [reflexivity|].
  destruct a1 as [|s2 a2]; cbn [app]; [reflexivity|].
  destruct (inRange locb hicb s2); cbn [negb]; [|reflexivity].
  destruct (sz <=? 3)%nat; [reflexivity|].
  destruct a2 as [|s3 a3]; cbn [app]; reflexivity.
Qed.

(** The fuel of [decode] never runs out: any amount from the length of
    the input on gives the same runes. *)
Lemma decode_fuel (n : nat) : forall m s,
  (List.length s <= n)%nat -> (List.length s <= m)%nat ->
  decode n s = decode m s.
Proof.
  induction n as [|n IH]; intros m s Hn Hm.
  - destruct s; [|simpl in Hn; lia]. destruct m; reflexivity.
  - destruct s as [|s0 t]; [destruct m; reflexivity|].
    destruct m as [|m]; [simpl in Hm; lia|].
    cbn [decode].
    pose proof (Decode_width s0 t) as W.
    destruct (DecodeRuneInString (s0 :: t)) as [r w]. cbn [snd] in W.
    f_equal. apply IH; rewrite length_skipn; cbn [List.length] in *; lia.
Qed.

Lemma runes_cons (s0 : Z) (t : list Z) :
  runes (s0 :: t)
  = fst (DecodeRuneInString (s0 :: t))
      :: runes (skipn (snd (DecodeRuneInString (s0 :: t))) (s0 :: t)).
Proof.
  unfold runes at 1. cbn [List.length decode].
  pose proof (Decode_width s0 t) as W.
  destruct (DecodeRuneInString (s0 :: t)) as [r w]. cbn [fst snd] in *.
  f_equal. apply decode_fuel; rewrite ?length_skipn; cbn [List.length] in *; lia.
Qed.

(** Decoding does not look across a line feed. *)
Lemma runes_app_nl (b : list Z) : forall n a,
  (List.length a <= n)%nat ->
  runes (a ++ 10 :: b) = (runes a ++ 10 :: runes b)%list.
Proof.
  induction n as [|n IH]; intros a Hn.
  - destruct a; [|simpl in Hn; lia]. cbn [app]. now rewrite runes_cons.
  - destruct a as [|s0 t]; [cbn [app]; now rewrite runes_cons|].
    change ((s0 :: t) ++ 10 :: b)%list with (s0 :: (t ++ 10 :: b))%list at 1.
    rewrite (runes_cons s0 (t ++ 10 :: b)), (runes_cons s0 t).
    change (s0 :: (t ++ 10 :: b))%list with ((s0 :: t) ++ 10 :: b)%list.
    rewrite Decode_app_nl.
    pose proof (Decode_width s0 t) as W.
    destruct (DecodeRuneInString (s0 :: t)) as [r w]. cbn [fst snd] in *.
    rewrite skipn_app.
    replace (w - List.length (s0 :: t))%nat with 0%nat by lia.
    cbn [skipn app]. f_equal.
    apply IH. rewrite length_skipn. cbn [List.length] in *; lia.
Qed.

Lemma runes_no_nl (n : nat) : forall s,
  (List.length s <= n)%nat -> ~ In 10 s -> ~ In 10 (runes s).
Proof.
  induction n as [|n IH]; intros s Hn Hs.
  - destruct s; [intros [] | simpl in Hn; lia].
  - destruct s as [|s0 t]; [intros []|].
    rewrite runes_cons.
    pose proof (Decode_width s0 t) as W.
    pose proof (@Decode_fst_nl s0 t) as F.
    destruct (DecodeRuneInString (s0 :: t)) as [r w]. cbn [fst snd] in *.
    intros [E|I].
    + apply Hs. left. now apply F.
    + revert I. apply IH.
      * rewrite length_skipn. cbn [List.length] in *; lia.
      * intros I. apply Hs.
        rewrite <- (firstn_skipn w (s0 :: t)). apply in_or_app. now right.
Qed.

Lemma lines_no_nl (s : list Z) : ~ In 10 s -> lines s = [s].
Proof.
  induction s as [|c t IH]; intros H; [reflexivity|].
  cbn [lines].
  destruct (c =? 10) eqn:E;
    [apply Z.eqb_eq in E; subst; exfalso; apply H; now left|].
  rewrite IH; [reflexivity|]. intros I. apply H. now right.
Qed.

Lemma lines_app_nl (x y : list Z) :
  ~ In 10 x -> lines (x ++ 10 :: y) = x :: lines y.
Proof.
  induction x as [|c t IH]; intros H; [reflexivity|].
  cbn [lines app].
  destruct (c =? 10) eqn:E;
    [apply Z.eqb_eq in E; subst; exfalso; apply H; now left|].
  rewrite IH; [reflexivity|]. intros I. apply H. now right.
Qed.

Lemma first_line (s : list Z) :
  ~ In 10 s \/ exists x y, s = (x ++ 10 :: y)%list /\ ~ In 10 x.
Proof.
  induction s as [|c t IH]; [left; intros []|].
  destruct (Z.eq_dec c 10) as [->|N].
  - right. exists [], t. split; [reflexivity | intros []].
  - destruct IH as [IH|(x & y & -> & Hx)].
    + left. intros [E|I]; [now apply N | now apply IH].
    + right. exists (c :: x), y. split; [reflexivity|].
      intros [E|I]; [now apply N | now apply Hx].
Qed.

(** The lines of the decoded body are the decoded lines of the body. *)
Lemma lines_runes_le (n : nat) : forall s,
  (List.length s <= n)%nat -> lines (runes s) = map runes (lines s).
Proof.
  induction n as [|n IH]; intros s Hn.
  - destruct s; [reflexivity | simpl in Hn; lia].
  - destruct (first_line s) as [H|(x & y & -> & Hx)].
    + rewrite (lines_no_nl s) by assumption. cbn [map].
      apply lines_no_nl. now apply runes_no_nl with (n := S n).
    + rewrite runes_app_nl with (n := List.length x) by lia.
      rewrite (lines_app_nl x) by assumption. cbn [map].
      rewrite lines_app_nl
        by now apply runes_no_nl with (n := List.length x).
      f_equal. apply IH.
      rewrite length_app in Hn. simpl in Hn. lia.
Qed.

Lemma lines_runes (s : list Z) : lines (runes s) = map runes (lines s).
Proof. now apply lines_runes_le with (n := List.length s). Qed.

End Decoding.

(** ** The command pattern *)

Section Pattern.

Lemma lines_nonempty (s : list Z) : lines s <> [].
Proof.
  destruct s as [|c t]; simpl; [discriminate|].
  destruct (c =? 10); [discriminate|].
  destruct (lines t); discriminate.
Qed.

Lemma hd_lines_cons (c : Z) (t : list Z) :
  hd [] (lines (c :: t)) = if c =? 10 then [] else c :: hd [] (lines t).
Proof.
  simpl. destruct (c =? 10); [reflexivity|].
  destruct (lines t); reflexivity.
Qed.

Lemma tl_lines_cons (c : Z) (t : list Z) :
  tl (lines (c :: t)) = if c =? 10 then lines t else tl (lines t).
Proof.
  simpl. destruct (c =? 10); [reflexivity|].
  destruct (lines t) eqn:E; [|reflexivity].
  now apply lines_nonempty in E.
Qed.

Lemma lines_hd_tl (s : list Z) : lines s = hd [] (lines s) :: tl (lines s).
Proof.
  destruct (lines s) eqn:E; [|reflexivity].
  now apply lines_nonempty in E.
Qed.

Lemma inClass_perl_space (c : rune) :
  inClass perl_space c = (c =? 10) || isBlank c.
Proof.
  unfold inClass, perl_space, isBlank; simpl.
  destruct (c =? 10) eqn:E10; [apply Z.eqb_eq in E10; subst; reflexivity|].
  destruct (c =? 9) eqn:E9; [apply Z.eqb_eq in E9; subst; reflexivity|].
  destruct (c =? 12) eqn:E12; [apply Z.eqb_eq in E12; subst; reflexivity|].
  destruct (c =? 13) eqn:E13; [apply Z.eqb_eq in E13; subst; reflexivity|].
  destruct (c =? 32) eqn:E32; [apply Z.eqb_eq in E32; subst; reflexivity|].
  apply Z.eqb_neq in E10, E9, E12, E13, E32.
  simpl.
  destruct (9 <=? c) eqn:A; destruct (c <=? 10) eqn:B;
    destruct (12 <=? c) eqn:C; destruct (c <=? 13) eqn:D;
    destruct (32 <=? c) eqn:F; destruct (c <=? 32) eqn:G; simpl; try reflexivity;
    rewrite ?Z.leb_le, ?Z.leb_gt in *; lia.
Qed.

Lemma starLoop_space (n : nat) : forall s prev,
  (List.length s <= n)%nat ->
  starLoop (accepts (OpCharClass perl_space))
           (fun _ t => isEndLine t && true) n prev s
  = trail s.
Proof.
  induction n as [|n IH]; intros s prev Hn.
  - destruct s; [reflexivity | simpl in Hn; lia].
  - destruct s as [|c t]; [reflexivity|].
    cbn [starLoop accepts trail isEndLine].
    rewrite inClass_perl_space, andb_true_r.
    destruct (c =? 10) eqn:E; [reflexivity|].
    cbn [orb].
    replace (List.length t <? List.length (c :: t))%nat with true
      by (symmetry; apply Nat.ltb_lt; simpl; lia).
    rewrite IH by (simpl in Hn; lia).
    reflexivity.
Qed.

Lemma litFold_variants :
  Forall2 (fun a vs => forall c, matchRune (byteOf a) true c = existsb (Z.eqb c) vs)
          (list_ascii_of_string "/skip") caseVariants.
Proof.
  repeat constructor; intro c; unfold matchRune; cbn;
    repeat match goal with
           | |- context [?x =? ?n] =>
               is_var x;
               let E := fresh "E" in
               destruct (x =? n) eqn:E;
               [apply Z.eqb_eq in E; subst x; reflexivity |]
           end; reflexivity.
Qed.

Lemma accepts_litFold (a : ascii) (vs : list rune) (rest : Regexp) prev s k :
  (forall c, matchRune (byteOf a) true c = existsb (Z.eqb c) vs) ->
  accepts (OpConcat (litFold a) rest) prev s k
  = match s with
    | [] => false
    | c :: t => existsb (Z.eqb c) vs && accepts rest (Some c) t k
    end.
Proof.
  intros H. destruct s as [|c t]; [reflexivity|].
  cbn [accepts litFold]. now rewrite H.
Qed.

(** The pattern at one position: the line anchor, the command, white space
    up to the end of a line. *)
Lemma accepts_skipRe (prev : option rune) (s : list rune) :
  accepts skipRe prev s (fun _ _ => true) = isBeginLine prev && skipHere s.
Proof.
  pose proof litFold_variants as V.
  unfold skipRe, skipHere, caseVariants in *.
  cbn [concat fold_right map app list_ascii_of_string] in *.
  match goal with
  | |- accepts (OpConcat OpBeginLine ?r) _ _ ?k = _ =>
      change (isBeginLine prev && accepts r prev s k
              = isBeginLine prev
                && match stripPrefix caseVariants s with
                   | Some rest => trail rest
                   | None => false
                   end)
  end.
  f_equal. unfold caseVariants.
  generalize prev; clear prev.
  repeat match type of V with
         | Forall2 _ (_ :: _) (_ :: _) =>
             let H := fresh "H" in
             let V' := fresh "V" in
             inversion V as [|? ? ? ? H V']; subst; clear V; rename V' into V;
             intros prev;
             rewrite (@accepts_litFold _ _ _ _ _ _ H);
             destruct s as [|?c s]; [reflexivity|];
             cbn [stripPrefix];
             match goal with
             | |- context [existsb ?f ?l] =>
                 destruct (existsb f l); [cbn [andb] | reflexivity]
             end;
             generalize (Some c); clear prev
         end.
  intros prev. cbn [stripPrefix].
  match goal with
  | |- accepts _ ?p _ _ = _ => exact (@starLoop_space _ s p (le_n _))
  end.
Qed.

Lemma trail_lines (s : list rune) :
  trail s = forallb isBlank (hd [] (lines s)).
Proof.
  induction s as [|c t IH]; [reflexivity|].
  rewrite hd_lines_cons. cbn [trail].
  destruct (c =? 10); [reflexivity|].
  cbn [orb forallb]. now rewrite IH.
Qed.

Lemma stripPrefix_lines (vss : list (list rune)) :
  Forall (fun vs => existsb (Z.eqb 10) vs = false) vss ->
  forall s,
    match stripPrefix vss s with Some rest => trail rest | None => false end
    = match stripPrefix vss (hd [] (lines s)) with
      | Some ws => forallb isBlank ws
      | None => false
      end.
Proof.
  induction 1 as [|vs vss Hvs _ IH]; intros s.
  - apply trail_lines.
  - destruct s as [|c t]; [reflexivity|].
    rewrite hd_lines_cons.
    destruct (c =? 10) eqn:E.
    + apply Z.eqb_eq in E; subst c. cbn [stripPrefix]. now rewrite Hvs.
    + cbn [stripPrefix]. destruct (existsb (Z.eqb c) vs); [apply IH | reflexivity].
Qed.

Lemma skipHere_lines (s : list rune) :
  skipHere s = skipLineb (hd [] (lines s)).
Proof.
  apply stripPrefix_lines. repeat constructor.
Qed.

(** The search finds a match exactly when a line is the command: the line
    at the current position if a line begins there, or a later one. *)
Lemma search_lines (s : list rune) : forall prev,
  search skipRe prev s
  = (isBeginLine prev && skipLineb (hd [] (lines s)))
    || existsb skipLineb (tl (lines s)).
Proof.
  induction s as [|c t IH]; intros prev.
  - cbn [search]. rewrite accepts_skipRe, skipHere_lines. reflexivity.
  - cbn [search]. rewrite accepts_skipRe, skipHere_lines, IH.
    rewrite tl_lines_cons, hd_lines_cons.
    cbn [isBeginLine].
    destruct (c =? 10).
    + rewrite (lines_hd_tl t) at 3. cbn [existsb].
      change (skipLineb []) with false.
      now rewrite andb_false_r.
    + reflexivity.
Qed.

Lemma search_skipRe (s : list rune) :
  search skipRe None s = existsb skipLineb (lines s).
Proof.
  rewrite search_lines.
  destruct (lines s) eqn:E; [now apply lines_nonempty in E | reflexivity].
Qed.

Lemma stripPrefix_Some (vss : list (list rune)) : forall l ws,
  stripPrefix vss l = Some ws <->
  exists cmd, l = (cmd ++ ws)%list /\ Forall2 (fun vs c => In c vs) vss cmd.
Proof.
  induction vss as [|vs vss IH]; intros l ws; cbn [stripPrefix].
  - split.
    + intros [= ->]. exists []. split; [reflexivity | constructor].
    + intros (cmd & -> & F). inversion F; subst. reflexivity.
  - destruct l as [|c t].
    + split; [discriminate|].
      intros (cmd & E & F). inversion F; subst. discriminate.
    + destruct (existsb (Z.eqb c) vs) eqn:Ec.
      * rewrite IH. apply existsb_exists in Ec as (x & Hx & Ex).
        apply Z.eqb_eq in Ex; subst x.
        split.
        -- intros (cmd & -> & F). exists (c :: cmd). split; [reflexivity|].
           now constructor.
        -- intros (cmd & E & F). inversion F as [|? c' ? cmd' Hc F']; subst.
           injection E as <- ->. now exists cmd'.
      * split; [discriminate|].
        intros (cmd & E & F). inversion F as [|? c' ? cmd' Hc F']; subst.
        injection E as <- ->.
        assert (existsb (Z.eqb c) vs = true) as C; [|congruence].
        apply existsb_exists. exists c. split; [assumption | apply Z.eqb_refl].
Qed.

Lemma skipLineb_iff (l : list rune) : skipLineb l = true <-> isSkipLine l.
Proof.
  unfold skipLineb, isSkipLine. split.
  - destruct (stripPrefix caseVariants l) as [ws|] eqn:E; [|discriminate].
    intros F. apply stripPrefix_Some in E as (cmd & -> & Hcmd).
    exists cmd, ws. repeat split; try assumption.
    now apply Forall_forall; rewrite forallb_forall in F.
  - intros (cmd & ws & -> & Hcmd & F).
    assert (stripPrefix caseVariants (cmd ++ ws) = Some ws) as ->
        by (apply stripPrefix_Some; now exists cmd).
    apply forallb_forall. now apply Forall_forall.
Qed.

Lemma MatchString_skipRe (body : string) :
  MatchString skipRe body
  = existsb (fun l => skipLineb (runes l)) (lines (bytes body)).
Proof.
  unfold MatchString. rewrite search_skipRe, lines_runes.
  induction (lines (bytes body)) as [|l ls IH]; [reflexivity|].
  cbn [map existsb]. now rewrite IH.
Qed.

(** The pattern matches exactly the bodies with a line that is the
    command. *)
Lemma MatchString_skipRe_iff (body : string) :
  MatchString skipRe body = true
  <-> exists l, In l (lines (bytes body)) /\ isSkipLine (runes l).
Proof.
  rewrite MatchString_skipRe, existsb_exists.
  split; intros (l & I & H); exists l; (split; [assumption|]);
    now apply skipLineb_iff.
Qed.

End Pattern.

(** ** Runs of programs *)

Local Open Scope string_scope.

Section Runs.

Lemma runs_bind {A B : Type} (p : prog A) (f : A -> prog B) :
  forall tr b,
    runs (bind p f) tr b
    <-> exists tr1 a tr2,
          tr = (tr1 ++ tr2)%list /\ runs p tr1 a /\ runs (f a) tr2 b.
Proof.
  induction p as [a|X c k IH]; intros tr b; cbn [bind runs].
  - split.
    + intros H. exists [], a, tr. auto.
    + intros (tr1 & a' & tr2 & -> & (-> & ->) & H). exact H.
  - split.
    + intros (x & tr' & -> & H). apply IH in H as (tr1 & a & tr2 & -> & H1 & H2).
      exists (Ev c x :: tr1), a, tr2. split; [reflexivity|].
      split; [|assumption]. now exists x, tr1.
    + intros (tr1 & a & tr2 & -> & (x & tr' & -> & H1) & H2).
      exists x, (tr' ++ tr2)%list. split; [reflexivity|].
      apply IH. now exists tr', a, tr2.
Qed.

(** Whatever the collaborators answer, the program runs to its end. *)
Lemma run_runs {S A : Type} (o : oracle S) (p : prog A) :
  forall st, runs p (fst (fst (run o p st))) (snd (fst (run o p st))).
Proof.
  induction p as [a|X c k IH]; intros st; cbn [run runs].
  - now split.
  - destruct (o X c st) as [x st'].
    specialize (IH x st').
    destruct (run o (k x) st') as [[tr a] st'']. cbn [fst snd] in *.
    now exists x, tr.
Qed.

End Runs.

(** ** The loop over the presubmits *)

Section Loop.

Variable FormatResponseRaw : string -> string -> string -> string -> string.
Variable e : GenericCommentEvent.
Variable pr : PullRequest.
Variable statuses : list Status.
Variable filteredPresubmits : list Presubmit.

Lemma statusExists_existsb (job : Presubmit) (sts : list Status) :
  statusExists job sts
  = existsb (fun st => github.Context st =? config.Context job) sts.
Proof.
  induction sts as [|st rest IH]; [reflexivity|].
  cbn [statusExists existsb]. rewrite IH.
  now destruct (github.Context st =? config.Context job).
Qed.

Lemma isSuccess_existsb (job : Presubmit) (sts : list Status) :
  isSuccess job sts
  = existsb (fun st => (github.Context st =? config.Context job)
                       && (State st =? StatusSuccess)) sts.
Proof.
  induction sts as [|st rest IH]; [reflexivity|].
  cbn [isSuccess existsb]. rewrite IH.
  now destruct ((github.Context st =? config.Context job)
                && (State st =? StatusSuccess)).
Qed.

Lemma triggerWillHandle_existsb (job : Presubmit) (fs : list Presubmit) :
  triggerWillHandle fs job
  = existsb (fun p => (config.Name job =? config.Name p)
                      && (config.Context job =? config.Context p)) fs.
Proof.
  induction fs as [|p rest IH]; [reflexivity|].
  cbn [triggerWillHandle existsb]. rewrite IH.
  now destruct ((config.Name job =? config.Name p)
                && (config.Context job =? config.Context p)).
Qed.

(** [eligible] is the negation of the three guards of the loop body. *)
Lemma eligible_guards (job : Presubmit) :
  eligible statuses filteredPresubmits job
  = negb (negb (statusExists job statuses) || isSuccess job statuses)
    && negb (triggerWillHandle filteredPresubmits job)
    && negb (ContextRequired job).
Proof.
  unfold eligible, ContextRequired.
  rewrite statusExists_existsb, isSuccess_existsb, triggerWillHandle_existsb.
  now rewrite negb_orb, negb_involutive.
Qed.

Lemma eligible_iff (job : Presubmit) :
  eligible statuses filteredPresubmits job = true
  <-> Eligible statuses (overlap filteredPresubmits) job.
Proof.
  unfold eligible, Eligible, overlap.
  rewrite !andb_true_iff, !negb_true_iff, <- !not_true_iff_false.
  rewrite !existsb_exists, in_map_iff.
  assert ((exists st, In st statuses
                      /\ (github.Context st =? config.Context job) = true)
          <-> (exists st, In st statuses
                          /\ github.Context st = config.Context job)) as A.
  { split; intros (st & Hin & H); exists st; (split; [assumption|]);
      now apply String.eqb_eq. }
  assert ((exists st, In st statuses
                      /\ (github.Context st =? config.Context job)
                         && (State st =? StatusSuccess) = true)
          <-> (exists st, In st statuses
                          /\ github.Context st = config.Context job
                          /\ State st = StatusSuccess)) as B.
  { split; intros (st & Hin & H); exists st; (split; [assumption|]).
    - apply andb_true_iff in H as [H1 H2]. now rewrite String.eqb_eq in H1, H2.
    - apply andb_true_iff. now rewrite !String.eqb_eq. }
  assert ((exists p, In p filteredPresubmits
                     /\ (config.Name job =? config.Name p)
                        && (config.Context job =? config.Context p) = true)
          <-> (exists p, (config.Name p, config.Context p)
                         = (config.Name job, config.Context job)
                         /\ In p filteredPresubmits)) as C.
  { split; intros (p & H1 & H2); exists p.
    - apply andb_true_iff in H2 as [H2 H3]. rewrite String.eqb_eq in H2, H3.
      split; [|assumption]. now rewrite H2, H3.
    - injection H1 as H1 H3. split; [assumption|].
      apply andb_true_iff. now rewrite !String.eqb_eq. }
  rewrite not_true_iff_false. tauto.
Qed.

Lemma loopBody_continue (job : Presubmit) :
  eligible statuses filteredPresubmits job = false ->
  loopBody FormatResponseRaw e pr statuses filteredPresubmits job = Ret Continue.
Proof.
  rewrite eligible_guards. unfold loopBody.
  destruct (negb (statusExists job statuses) || isSuccess job statuses);
    [reflexivity|].
  destruct (triggerWillHandle filteredPresubmits job); [reflexivity|].
  destruct (ContextRequired job); [reflexivity | discriminate].
Qed.

Lemma loopBody_write (job : Presubmit) :
  eligible statuses filteredPresubmits job = true ->
  loopBody FormatResponseRaw e pr statuses filteredPresubmits job
  = (r <- perform (CreateStatus (org e) (repo e) (SHA (Head pr)) (skipped job));;
     match r with
     | Some err =>
         r' <- respond FormatResponseRaw e (cannotUpdate job err);;
         Ret (Return r')
     | None => Ret Continue
     end).
Proof.
  rewrite eligible_guards. unfold loopBody.
  destruct (negb (statusExists job statuses) || isSuccess job statuses);
    [discriminate|].
  destruct (triggerWillHandle filteredPresubmits job); [discriminate|].
  destruct (ContextRequired job); [discriminate | reflexivity].
Qed.

Lemma runs_respond (resp : string) (tr : list event) (r : option error) :
  runs (respond FormatResponseRaw e resp) tr r
  <-> tr = reported FormatResponseRaw e resp r.
Proof.
  unfold respond, reported. cbn. split.
  - intros ([] & tr1 & -> & x & tr2 & -> & -> & ->). reflexivity.
  - intros ->. exists tt. eexists. split; [reflexivity|].
    exists r. eexists. split; [reflexivity|]. now split.
Qed.

(** The loop of [handle] runs as [looped] says, and in no other way. *)
Lemma loop_runs (jobs : list Presubmit) : forall tr r,
  runs (forRange jobs
          (loopBody FormatResponseRaw e pr statuses filteredPresubmits)
          (Ret None)) tr r
  <-> looped FormatResponseRaw e pr statuses filteredPresubmits jobs tr r.
Proof.
  induction jobs as [|job rest IH]; intros tr r; cbn [forRange].
  - cbn [runs]. split.
    + intros [-> <-]. constructor.
    + intros H. inversion H. now split.
  - destruct (eligible statuses filteredPresubmits job) eqn:E.
    + rewrite (loopBody_write _ E). cbn. split.
      * intros ([err|] & tr' & -> & H).
        -- destruct H as ([] & tr1 & -> & x & tr2 & -> & -> & ->).
           now apply looped_abort.
        -- apply looped_write; [assumption|]. now apply IH.
      * intros H. inversion H; subst; try congruence.
        -- exists None. eexists. split; [reflexivity|]. now apply IH.
        -- exists (Some err). eexists. split; [reflexivity|].
           exists tt. eexists. split; [reflexivity|].
           exists r. eexists. split; [reflexivity|]. now split.
    + rewrite (loopBody_continue _ E). cbn [bind]. rewrite IH. split.
      * now apply looped_continue.
      * intros H. inversion H; subst; congruence.
Qed.

End Loop.

(** ** The handler, path by path *)

Section Paths.

Variable FormatResponseRaw : string -> string -> string -> string -> string.
Variable e : GenericCommentEvent.
Variable honorOkToTest : bool.

(** The two guards at the head of [handle] let through the commands and
    nothing else. *)
Lemma guards_isCommand :
  (negb (IsPR e) || negb (IssueState e =? "open")
   || negb (Action e =? GenericCommentActionCreated) = false
   /\ negb (MatchString skipRe (Body e)) = false)
  <-> isCommand e.
Proof.
  unfold isCommand.
  rewrite !orb_false_iff, !negb_false_iff, !String.eqb_eq.
  rewrite MatchString_skipRe_iff. tauto.
Qed.

Lemma handle_ignored :
  ~ isCommand e -> handle FormatResponseRaw e honorOkToTest = Ret None.
Proof.
  intros N. unfold handle.
  destruct (negb (IsPR e) || negb (IssueState e =? "open")
            || negb (Action e =? GenericCommentActionCreated)) eqn:G1;
    [reflexivity|].
  destruct (negb (MatchString skipRe (Body e))) eqn:G2; [reflexivity|].
  exfalso. apply N, guards_isCommand. now split.
Qed.

(** [handle] runs as [handled] says, and in no other way. *)
Lemma handle_runs (tr : list event) (r : option error) :
  runs (handle FormatResponseRaw e honorOkToTest) tr r
  <-> handled FormatResponseRaw e honorOkToTest tr r.
Proof.
  destruct (negb (IsPR e) || negb (IssueState e =? "open")
            || negb (Action e =? GenericCommentActionCreated)) eqn:G1;
    [|destruct (negb (MatchString skipRe (Body e))) eqn:G2].
  1, 2: assert (~ isCommand e) as N
      by (rewrite <- guards_isCommand; intros [? ?]; congruence);
    rewrite (handle_ignored N); cbn [runs]; split;
    [ intros [-> <-]; apply handled_ignored; exact N
    | intros H; inversion H; subst; try contradiction; now split ].
  assert (isCommand e) as C by (apply guards_isCommand; now split).
  unfold handle. rewrite G1, G2.
  cbn [bind perform runs Ev]. split.
  - intros ([pr|err] & tr1 & -> & H).
    2: { apply runs_respond in H as ->. now apply handled_no_pr. }
    destruct H as ([ps|err] & tr2 & -> & H).
    2: { destruct H as [-> <-]. now apply handled_no_presubmits. }
    destruct H as ([cs|err] & tr3 & -> & H).
    2: { apply runs_respond in H as ->. now apply handled_no_status. }
    destruct (CombinedState cs =? StatusSuccess) eqn:S.
    { destruct H as [-> <-]. apply String.eqb_eq in S.
      now apply handled_success. }
    apply String.eqb_neq in S.
    destruct H as ([fs|err] & tr4 & -> & H).
    2: { apply runs_respond in H as ->. now apply handled_no_overlap. }
    apply loop_runs in H.
    change (handled FormatResponseRaw e honorOkToTest
              (fetches e honorOkToTest pr ps cs fs ++ tr4)%list r).
    now apply handled_loop.
  - intros H. inversion H; subst; try contradiction.
    + exists (inr err). eexists. split; [reflexivity|]. now apply runs_respond.
    + exists (inl pr). eexists. split; [reflexivity|].
      exists (inr err). eexists. split; [reflexivity|]. now split.
    + exists (inl pr). eexists. split; [reflexivity|].
      exists (inl ps). eexists. split; [reflexivity|].
      exists (inr err). eexists. split; [reflexivity|]. now apply runs_respond.
    + exists (inl pr). eexists. split; [reflexivity|].
      exists (inl ps). eexists. split; [reflexivity|].
      exists (inl cs). eexists. split; [reflexivity|].
      match goal with H : CombinedState cs = _ |- _ => rewrite H end.
      now split.
    + exists (inl pr). eexists. split; [reflexivity|].
      exists (inl ps). eexists. split; [reflexivity|].
      exists (inl cs). eexists. split; [reflexivity|].
      match goal with
      | H : CombinedState cs <> _ |- _ => apply String.eqb_neq in H; rewrite H
      end.
      exists (inr err). eexists. split; [reflexivity|]. now apply runs_respond.
    + exists (inl pr). eexists. split; [reflexivity|].
      exists (inl ps). eexists. split; [reflexivity|].
      exists (inl cs). eexists. split; [reflexivity|].
      match goal with
      | H : CombinedState cs <> _ |- _ => apply String.eqb_neq in H; rewrite H
      end.
      exists (inl fs). eexists. split; [reflexivity|]. now apply loop_runs.
Qed.

End Paths.

(** ** What a run of the loop writes *)

Section Writes.

Variable FormatResponseRaw : string -> string -> string -> string -> string.
Variable e : GenericCommentEvent.
Variable pr : PullRequest.
Variable statuses : list Status.
Variable filteredPresubmits : list Presubmit.

Local Abbreviation elig := (eligible statuses filteredPresubmits).
Local Abbreviation loop :=
  (looped FormatResponseRaw e pr statuses filteredPresubmits).

Lemma statusWrites_app (tr1 tr2 : list event) :
  statusWrites (tr1 ++ tr2) = (statusWrites tr1 ++ statusWrites tr2)%list.
Proof.
  induction tr1 as [|ev tr1 IH]; [reflexivity|].
  destruct ev; cbn [app statusWrites]; now rewrite IH.
Qed.

Lemma statusWrites_map (res : option error) (jobs : list Presubmit) :
  statusWrites (map (statusWrite e pr res) jobs)
  = map (fun job => (skipped job, res)) jobs.
Proof.
  induction jobs as [|job rest IH]; [reflexivity|].
  cbn [map statusWrite statusWrites]. now rewrite IH.
Qed.

(** When every write succeeds, the loop writes the status of every
    eligible job, in order, and falls through. *)
Lemma looped_all (jobs : list Presubmit) :
  loop jobs (map (statusWrite e pr None) (filter elig jobs)) None.
Proof.
  induction jobs as [|job rest IH]; [constructor|].
  cbn [filter]. destruct (elig job) eqn:E.
  - now apply looped_write.
  - now apply looped_continue.
Qed.

(** A run of the loop writes the statuses of the eligible jobs in order,
    up to the end or up to the first write that fails; after that come the
    report of the failure and nothing else. *)
Lemma looped_prefix (jobs : list Presubmit) (tr : list event)
      (r : option error) :
  loop jobs tr r ->
  (tr = map (statusWrite e pr None) (filter elig jobs) /\ r = None)
  \/ exists done job rest err,
       filter elig jobs = (done ++ job :: rest)%list
       /\ tr = (map (statusWrite e pr None) done
                ++ statusWrite e pr (Some err) job
                :: reported FormatResponseRaw e (cannotUpdate job err) r)%list.
Proof.
  induction 1 as [|job rest tr r E _ IH|job rest tr r E _ IH|job rest err r E];
    cbn [filter]; try rewrite E.
  - now left.
  - exact IH.
  - destruct IH as [[-> ->]|(done & j & rest' & err & F & ->)].
    + now left.
    + right. exists (job :: done), j, rest', err. now rewrite F.
  - right. now exists [], job, (filter elig rest), err.
Qed.

(** Every status that a run of the loop writes is the status of an
    eligible job of the list. *)
Lemma looped_writes (jobs : list Presubmit) (tr : list event)
      (r : option error) (s : Status) (res : option error) :
  loop jobs tr r ->
  In (s, res) (statusWrites tr) ->
  exists job, In job jobs /\ elig job = true /\ s = skipped job.
Proof.
  intros H Hin.
  assert (exists job, In job (filter elig jobs) /\ s = skipped job)
    as (job & Hjob & ->).
  { apply looped_prefix in H
      as [[-> ->]|(done & job & rest & err & F & ->)].
    - rewrite statusWrites_map in Hin.
      apply in_map_iff in Hin as (job & [= <- <-] & Hjob). now exists job.
    - rewrite statusWrites_app, statusWrites_map in Hin. rewrite F.
      apply in_app_or in Hin as [Hin|Hin].
      + apply in_map_iff in Hin as (j & [= <- <-] & Hj).
        exists j. split; [|reflexivity]. apply in_or_app. now left.
      + cbn in Hin. destruct Hin as [[= <- <-]|[]].
        exists job. split; [|reflexivity]. apply in_or_app. right. now left. }
  apply filter_In in Hjob as [? ?]. now exists job.
Qed.

(** The first write that fails is the last one: what is before it are
    writes that succeeded, what is after it is the report. *)
Lemma failed_write_splits (done : list Presubmit) (job : Presubmit)
      (err err' : error) (r : option error) (o rp ref : string) (s : Status) :
  forall before after,
    (map (statusWrite e pr None) done
       ++ statusWrite e pr (Some err) job
       :: reported FormatResponseRaw e (cannotUpdate job err) r
     = before ++ EvCreateStatus o rp ref s (Some err') :: after)%list ->
    before = map (statusWrite e pr None) done
    /\ s = skipped job /\ err' = err
    /\ after = reported FormatResponseRaw e (cannotUpdate job err) r.
Proof.
  induction done as [|d done IH]; intros before after H.
  - cbn [map app] in H.
    destruct before as [|b0 before]; cbn [app] in H.
    + injection H as _ _ _ <- <- <-. auto.
    + injection H as _ H. unfold reported in H.
      destruct before as [|b1 before]; [discriminate|].
      injection H as _ H.
      destruct before as [|b2 before]; [discriminate|].
      injection H as _ H. now destruct before.
  - cbn [map app] in H.
    destruct before as [|b0 before]; cbn [app] in H; [discriminate|].
    injection H as <- H.
    apply IH in H as (-> & -> & -> & ->). auto.
Qed.

Lemma no_failed_write (jobs : list Presubmit) (o rp ref : string)
      (s : Status) (err : error) :
  ~ In (EvCreateStatus o rp ref s (Some err))
       (map (statusWrite e pr None) jobs).
Proof.
  intros H. apply in_map_iff in H as (job & H & _). discriminate.
Qed.

End Writes.

(** ** Runs of the handler that reach the loop *)

Section Reached.

Variable FormatResponseRaw : string -> string -> string -> string -> string.
Variable e : GenericCommentEvent.
Variable honorOkToTest : bool.

(** The calls of the loop: status writes, warnings and comments. *)
Lemma looped_events pr statuses fs jobs tr r :
  looped FormatResponseRaw e pr statuses fs jobs tr r ->
  forall ev, In ev tr ->
    match ev with
    | EvCreateStatus _ _ _ _ _ | EvCreateComment _ _ _ _ _ | EvWarn _ => True
    | _ => False
    end.
Proof.
  induction 1 as [|job rest tr r E _ IH|job rest tr r E _ IH|job rest err r E];
    intros ev Hin.
  - destruct Hin.
  - now apply IH.
  - destruct Hin as [<-|Hin]; [exact I | now apply IH].
  - cbn in Hin. destruct Hin as [<-|[<-|[<-|[]]]]; exact I.
Qed.

(** A run in which the four fetches succeeded is a run of the loop on what
    they returned; the comment was a command and the combined status was not
    a success. *)
Lemma runs_fetches pr ps cs fs tr r :
  runs (handle FormatResponseRaw e honorOkToTest)
       (fetches e honorOkToTest pr ps cs fs ++ tr) r
  <-> isCommand e
      /\ CombinedState cs <> StatusSuccess
      /\ looped FormatResponseRaw e pr (Statuses cs) fs ps tr r.
Proof.
  rewrite handle_runs. split.
  - intros H. unfold fetches in H. cbn [app] in H.
    inversion H as [N E1 E2|err r' C E1 E2|pr' err C E1 E2|pr' ps' err r' C E1 E2
                    |pr' ps' cs' C S E1 E2|pr' ps' cs' err r' C S E1 E2
                    |pr' ps' cs' fs' tr' r' C S L E1 E2];
      try discriminate.
    subst. auto.
  - intros (C & S & L). now apply handled_loop.
Qed.

End Reached.

(** ** The skip decision *)

Section Decision.

Variable FormatResponseRaw : string -> string -> string -> string -> string.
Variable e : GenericCommentEvent.
Variable honorOkToTest : bool.

Local Abbreviation handler := (handle FormatResponseRaw e honorOkToTest).

(** Every status written in a run that reached the loop is the status of a
    configured job that passed the three guards. *)
Lemma written_eligible pr ps cs fs tr r s res :
  runs handler (fetches e honorOkToTest pr ps cs fs ++ tr) r ->
  In (s, res) (statusWrites tr) ->
  exists job,
    In job ps /\ Eligible (Statuses cs) (overlap fs) job /\ s = skipped job.
Proof.
  intros H Hin. apply runs_fetches in H as (_ & _ & L).
  eapply looped_writes in Hin as (job & Hjob & E & ->); [|exact L].
  exists job. split; [assumption|]. split; [|reflexivity].
  now apply eligible_iff.
Qed.

(** C1. When the comment is a command and the combined status is not a
    success, the handler writes one status for each configured check that has
    a status entry, is not reported as success, is not in the overlap set
    and is not required, and writes no other: the writes are those of the
    checks that pass this test, in the order of the configuration, each with
    the context of its check, the state [success] and the description
    [Skipped].  The handler does run this way when every write succeeds, and
    a run in which every write succeeds is this one. *)
Theorem skip_actions_exact pr ps cs fs :
  isCommand e ->
  CombinedState cs <> StatusSuccess ->
  let actions :=
    map (fun job => {| State := StatusSuccess;
                       Description := "Skipped";
                       github.Context := config.Context job |})
        (filter (eligible (Statuses cs) fs) ps) in
  let writes :=
    map (fun s => EvCreateStatus (org e) (repo e) (SHA (Head pr)) s None)
        actions in
  (forall job, eligible (Statuses cs) fs job = true
               <-> Eligible (Statuses cs) (overlap fs) job)
  /\ runs handler (fetches e honorOkToTest pr ps cs fs ++ writes) None
  /\ (forall tr r,
        runs handler (fetches e honorOkToTest pr ps cs fs ++ tr) r ->
        Forall (fun w => snd w = None) (statusWrites tr) ->
        tr = writes /\ r = None).
Proof.
  intros C S actions writes.
  assert (writes = map (statusWrite e pr None)
                       (filter (eligible (Statuses cs) fs) ps)) as W
      by (unfold writes, actions; now rewrite map_map).
  clearbody writes. clear actions. subst writes.
  split; [intros job; apply eligible_iff|]. split.
  - apply runs_fetches.
    split; [exact C | split; [exact S | apply looped_all]].
  - intros tr r H F. apply runs_fetches in H as (_ & _ & L).
    apply looped_prefix in L as [[-> ->]|(done & job & rest & err & _ & ->)].
    + now split.
    + exfalso. rewrite statusWrites_app in F.
      apply Forall_app in F as [_ F]. cbn in F.
      inversion F as [|? ? N _]. discriminate.
Qed.

(** C2. A required check is never skipped: whatever the statuses and the
    overlap set, the iteration of the loop on it makes no call and goes on
    to the next job, and every status written in a run is the status of a
    configured check that is not required. *)
Theorem required_never_skipped job :
  ContextRequired job = true ->
  (forall pr statuses fs,
      loopBody FormatResponseRaw e pr statuses fs job = Ret Continue)
  /\ (forall pr ps cs fs tr r s res,
        runs handler (fetches e honorOkToTest pr ps cs fs ++ tr) r ->
        In (s, res) (statusWrites tr) ->
        exists j, In j ps /\ ContextRequired j = false /\ j <> job
                  /\ s = skipped j).
Proof.
  intros R. split.
  - intros pr statuses fs. apply loopBody_continue.
    rewrite eligible_guards, R. now rewrite andb_false_r.
  - intros pr ps cs fs tr r s res H Hin.
    eapply written_eligible in Hin as (j & Hj & (_ & _ & _ & Q) & ->); [|exact H].
    exists j. repeat split; try assumption.
    intros ->. unfold ContextRequired in R. congruence.
Qed.

(** C3. A check whose name and context are in the overlap set is never
    skipped, whatever its statuses and whether or not it is required: the
    iteration of the loop on it makes no call, and every status written in a
    run is the status of a configured check outside the overlap set. *)
Theorem overlap_never_skipped fs job :
  In (config.Name job, config.Context job) (overlap fs) ->
  (forall pr statuses,
      loopBody FormatResponseRaw e pr statuses fs job = Ret Continue)
  /\ (forall pr ps cs tr r s res,
        runs handler (fetches e honorOkToTest pr ps cs fs ++ tr) r ->
        In (s, res) (statusWrites tr) ->
        exists j, In j ps
                  /\ ~ In (config.Name j, config.Context j) (overlap fs)
                  /\ j <> job /\ s = skipped j).
Proof.
  intros O. split.
  - intros pr statuses. apply loopBody_continue.
    apply not_true_iff_false. intros E.
    apply eligible_iff in E as (_ & _ & N & _). now apply N.
  - intros pr ps cs tr r s res H Hin.
    eapply written_eligible in Hin as (j & Hj & (_ & _ & N & _) & ->); [|exact H].
    exists j. repeat split; try assumption.
    intros ->. now apply N.
Qed.

(** C5. A check whose context has no status entry is never skipped, even
    when it is not required and not in the overlap set: the iteration of the
    loop on it makes no call, and every status written in a run is the status
    of a configured check that has a status entry. *)
Theorem unreported_never_skipped statuses job :
  ~ (exists st, In st statuses /\ github.Context st = config.Context job) ->
  (forall pr fs,
      loopBody FormatResponseRaw e pr statuses fs job = Ret Continue)
  /\ (forall pr ps cs fs tr r s res,
        Statuses cs = statuses ->
        runs handler (fetches e honorOkToTest pr ps cs fs ++ tr) r ->
        In (s, res) (statusWrites tr) ->
        exists j, In j ps
                  /\ (exists st, In st statuses
                                 /\ github.Context st = config.Context j)
                  /\ j <> job /\ s = skipped j).
Proof.
  intros U. split.
  - intros pr fs. apply loopBody_continue.
    apply not_true_iff_false. intros E.
    apply eligible_iff in E as (X & _). now apply U.
  - intros pr ps cs fs tr r s res <- H Hin.
    eapply written_eligible in Hin as (j & Hj & (X & _) & ->); [|exact H].
    exists j. repeat split; try assumption.
    intros ->. now apply U.
Qed.

(** C9. With several status entries for one context, a single entry with
    state [success] makes the check count as successful, wherever it stands
    among the entries and whatever the others report: [isSuccess] holds, the
    iteration of the loop on the check makes no call, and every status
    written in a run is the status of a check none of whose entries is a
    success. *)
Theorem any_success_entry_wins before st after job :
  github.Context st = config.Context job ->
  State st = StatusSuccess ->
  let statuses := (before ++ st :: after)%list in
  isSuccess job statuses = true
  /\ (forall pr fs,
        loopBody FormatResponseRaw e pr statuses fs job = Ret Continue)
  /\ (forall pr ps cs fs tr r s res,
        Statuses cs = statuses ->
        runs handler (fetches e honorOkToTest pr ps cs fs ++ tr) r ->
        In (s, res) (statusWrites tr) ->
        exists j, In j ps
                  /\ (forall st', In st' statuses ->
                                  github.Context st' = config.Context j ->
                                  State st' <> StatusSuccess)
                  /\ j <> job /\ s = skipped j).
Proof.
  intros Hc Hs statuses.
  assert (exists st', In st' statuses
                      /\ github.Context st' = config.Context job
                      /\ State st' = StatusSuccess) as X.
  { exists st. split; [|now split]. apply in_or_app. right. now left. }
  assert (isSuccess job statuses = true) as Y.
  { rewrite isSuccess_existsb. apply existsb_exists.
    destruct X as (st' & Hin & H1 & H2). exists st'. split; [assumption|].
    apply andb_true_iff. now rewrite !String.eqb_eq. }
  split; [exact Y|]. split.
  - intros pr fs. apply loopBody_continue.
    rewrite eligible_guards, Y. now rewrite orb_true_r.
  - intros pr ps cs fs tr r s res E H Hin.
    eapply written_eligible in Hin as (j & Hj & (_ & N & _) & ->); [|exact H].
    rewrite E in N.
    exists j. repeat split; try assumption.
    + intros st' Hin' H1 H2. apply N. now exists st'.
    + intros ->. now apply N.
Qed.

End Decision.

(** ** The paths around the loop *)

Section Boundary.

Variable FormatResponseRaw : string -> string -> string -> string -> string.
Variable e : GenericCommentEvent.
Variable honorOkToTest : bool.

Local Abbreviation handler := (handle FormatResponseRaw e honorOkToTest).

(** C4. When the combined status that was fetched has the overall state
    [success], the handler writes no status at all, whatever the configured
    checks and the status entries are: it returns [nil] right after the
    fetch, before it asks for the overlap. *)
Theorem success_no_actions tr r o rp ref cs :
  runs handler tr r ->
  In (EvGetCombinedStatus o rp ref (inl cs)) tr ->
  CombinedState cs = StatusSuccess ->
  statusWrites tr = []
  /\ r = None
  /\ exists pr ps,
       tr = [ EvGetPullRequest (org e) (repo e) (Number e) (inl pr);
              EvGetPresubmits (org e ++ "/" ++ repo e) ""
                ("heads/" ++ Ref (Base pr)) (SHA (Head pr)) (inl ps);
              EvGetCombinedStatus (org e) (repo e) (SHA (Head pr)) (inl cs) ].
Proof.
  intros H Hin S. apply handle_runs in H.
  inversion H as [N E1 E2|err r' C E1 E2|pr' err C E1 E2|pr' ps' err r' C E1 E2
                  |pr' ps' cs' C S' E1 E2|pr' ps' cs' err r' C S' E1 E2
                  |pr' ps' cs' fs' tr' r' C S' L E1 E2];
    subst; cbn [In reported] in Hin.
  - destruct Hin.
  - exfalso. intuition discriminate.
  - exfalso. intuition discriminate.
  - exfalso. intuition discriminate.
  - assert (cs' = cs) as -> by (intuition (discriminate || congruence)).
    split; [reflexivity|]. split; [reflexivity|]. now exists pr', ps'.
  - exfalso.
    assert (cs' = cs) as -> by (intuition (discriminate || congruence)).
    contradiction.
  - exfalso. apply in_app_or in Hin as [Hin|Hin].
    + cbn in Hin.
      assert (cs' = cs) as -> by (intuition (discriminate || congruence)).
      contradiction.
    + exact (looped_events L _ Hin).
Qed.

(** C6. A status write that fails ends the invocation.  Before it, the
    loop has written the statuses of the eligible checks that come earlier,
    each with success, and nothing undoes them; after it, the handler logs a
    warning and posts one comment whose text names the context of the check,
    and returns with the outcome of posting it: the statuses of the later
    eligible checks are not written. *)
Theorem status_write_fail_fast pr ps cs fs tr r before o rp ref s err after :
  runs handler (fetches e honorOkToTest pr ps cs fs ++ tr) r ->
  tr = (before ++ EvCreateStatus o rp ref s (Some err) :: after)%list ->
  exists done job rest,
    filter (eligible (Statuses cs) fs) ps = (done ++ job :: rest)%list
    /\ before = map (statusWrite e pr None) done
    /\ s = skipped job
    /\ after
       = [ EvWarn ("Cannot update PR status for context "
                     ++ github.Context s ++ ": " ++ Error err);
           EvCreateComment (org e) (repo e) (Number e)
             (FormatResponseRaw (Body e) (HTMLURL e) (Login (EventUser e))
                ("Cannot update PR status for context "
                   ++ github.Context s ++ ": " ++ Error err)) r ]
    /\ statusWrites after = [].
Proof.
  intros H E. apply runs_fetches in H as (_ & _ & L).
  apply looped_prefix in L as [[-> ->]|(done & job & rest & err' & F & ->)].
  - exfalso. eapply no_failed_write. rewrite E.
    apply in_or_app. right. now left.
  - apply failed_write_splits in E as (-> & -> & -> & ->).
    exists done, job, rest. repeat split; assumption || reflexivity.
Qed.

(** C7. When fetching the pull request, the combined status or the overlap
    fails, the handler logs a warning, posts one comment whose text ends with
    the error, and stops there: what it returns is the outcome of posting the
    comment, [nil] when the comment was posted. *)
Theorem fetch_failure_reported tr r before ev after err :
  runs handler tr r ->
  tr = (before ++ ev :: after)%list ->
  fetchFailure err ev ->
  exists what,
    In what [ "Cannot get PR #";
              "Cannot get combined commit statuses for PR #";
              "Cannot get combined status for PR #" ]
    /\ after
    = [ EvWarn (what ++ itoa (Number e) ++ " in " ++ org e ++ "/" ++ repo e
                     ++ ": " ++ Error err);
        EvCreateComment (org e) (repo e) (Number e)
          (FormatResponseRaw (Body e) (HTMLURL e) (Login (EventUser e))
             (what ++ itoa (Number e) ++ " in " ++ org e ++ "/" ++ repo e
                   ++ ": " ++ Error err)) r ].
Proof.
  intros H E F. apply handle_runs in H.
  inversion H as [N E1 E2|err' r' C E1 E2|pr' err' C E1 E2|pr' ps' err' r' C E1 E2
                  |pr' ps' cs' C S' E1 E2|pr' ps' cs' err' r' C S' E1 E2
                  |pr' ps' cs' fs' tr' r' C S' L E1 E2];
    subst.
  7: { exfalso.
       assert (In ev (fetches e honorOkToTest pr' ps' cs' fs' ++ tr')) as Hin
           by (rewrite E1; apply in_or_app; right; now left).
       apply in_app_or in Hin as [Hin|Hin].
       - cbn in Hin. destruct Hin as [<-|[<-|[<-|[<-|[]]]]]; inversion F.
       - apply (looped_events L) in Hin. destruct F; exact Hin. }
  all: unfold reported in *;
    repeat (destruct before as [|? before];
            [ cbn [app] in *;
              match goal with
              | E : _ :: _ = _ :: _ |- _ => injection E as <- E
              | E : [] = _ :: _ |- _ => discriminate E
              end;
              try (inversion F; subst; unfold cannot;
                   first [ exists "Cannot get PR #";
                           split; [cbn; tauto | reflexivity]
                         | exists "Cannot get combined commit statuses for PR #";
                           split; [cbn; tauto | reflexivity]
                         | exists "Cannot get combined status for PR #";
                           split; [cbn; tauto | reflexivity] ])
            | cbn [app] in *;
              match goal with
              | E : _ :: _ = _ :: _ |- _ => injection E as _ E
              | E : [] = _ :: _ |- _ => discriminate E
              end ]).
Qed.

(** C8. The handler goes on to fetch the pull request only if the comment
    is on a pull request, the pull request is open, the comment was created,
    and a line of the body is the command with at most blanks after it.
    When one of the four fails, the handler returns [nil] and makes no call
    at all. *)
Theorem gate_passes_commands_only :
  (forall tr r, runs handler tr r -> tr <> [] ->
      IsPR e = true
      /\ IssueState e = "open"
      /\ Action e = GenericCommentActionCreated
      /\ MatchString skipRe (Body e) = true
      /\ exists l, In l (lines (bytes (Body e))) /\ isSkipLine (runes l))
  /\ (IsPR e = false
      \/ IssueState e <> "open"
      \/ Action e <> GenericCommentActionCreated
      \/ MatchString skipRe (Body e) = false
      \/ ~ (exists l, In l (lines (bytes (Body e))) /\ isSkipLine (runes l)) ->
      handler = Ret None
      /\ forall tr r, runs handler tr r -> tr = [] /\ r = None).
Proof.
  split.
  - intros tr r H N. apply handle_runs in H.
    assert (isCommand e) as C by (inversion H; subst; congruence).
    destruct C as (C1 & C2 & C3 & C4). repeat split; try assumption.
    now apply MatchString_skipRe_iff.
  - intros D.
    assert (~ isCommand e) as N.
    { intros (C1 & C2 & C3 & C4).
      destruct D as [D|[D|[D|[D|D]]]]; try congruence.
      apply MatchString_skipRe_iff in C4. congruence. }
    rewrite (handle_ignored _ _ N). split; [reflexivity|].
    intros tr r [-> <-]. now split.
Qed.

End Boundary.

(** ** The command among other lines *)

Section Multiline.

Lemma bytes_app (a b : string) : bytes (a ++ b) = (bytes a ++ bytes b)%list.
Proof.
  unfold bytes. rewrite <- map_app. f_equal.
  induction a as [|c a IH]; [reflexivity|].
  cbn [append list_ascii_of_string app]. now rewrite IH.
Qed.

Lemma lines_app (a b : list Z) :
  lines (a ++ 10%Z :: b) = (lines a ++ lines b)%list.
Proof.
  induction a as [|c t IH]; [reflexivity|].
  cbn [app lines]. rewrite IH.
  destruct (c =? 10)%Z; [reflexivity|].
  destruct (lines t) eqn:E; [now apply lines_nonempty in E | reflexivity].
Qed.

(** After a prefix that is not empty, the last rune of the command falls
    among the blanks, and it is not one. *)
Lemma leading_not_skipLine (pre cmd rest : list rune) :
  pre <> [] ->
  Forall2 (fun vs c => In c vs) caseVariants cmd ->
  ~ isSkipLine (pre ++ cmd ++ rest).
Proof.
  intros P V (cmd' & ws & E & V' & B).
  unfold caseVariants in V, V'.
  repeat match goal with
         | H : Forall2 _ (_ :: _) _ |- _ => inversion H; subst; clear H
         | H : Forall2 _ [] _ |- _ => inversion H; subst; clear H
         end.
  destruct pre as [|p pre]; [congruence|].
  match goal with
  | H : In ?c [112%Z; 80%Z] |- _ =>
      assert (In c ws) as Hin;
      [| rewrite Forall_forall in B; specialize (B _ Hin);
         cbn in H; destruct H as [<-|[<-|[]]]; discriminate B ]
  end.
  cbn [app] in E. injection E as _ E.
  match type of E with
  | (pre ++ ?a :: ?b :: ?c :: ?d :: ?x :: rest)%list = _ =>
      assert (ws = skipn 4 ((pre ++ [a; b; c; d]) ++ x :: rest)) as ->
        by (rewrite <- app_assoc; cbn [app]; rewrite E; reflexivity)
  end.
  rewrite skipn_app.
  apply in_or_app. right.
  match goal with
  | |- In _ (skipn ?n _) =>
      replace n with 0%nat by (rewrite length_app; cbn [List.length]; lia)
  end.
  now left.
Qed.

(** The gate lets a command through to the fetch of the pull request. *)
Lemma handle_command
      (FormatResponseRaw : string -> string -> string -> string -> string)
      (e : GenericCommentEvent) (honorOkToTest : bool) :
  isCommand e ->
  exists k,
    handle FormatResponseRaw e honorOkToTest
    = Call (GetPullRequest (org e) (repo e) (Number e)) k.
Proof.
  intros C. apply guards_isCommand in C as [G1 G2].
  unfold handle. rewrite G1, G2. cbn [bind perform].
  eexists. reflexivity.
Qed.

(** C10. The pattern is matched line by line, and the gate of the handler
    with it.  A body matches exactly when one of its lines is the command,
    in any case, followed by blanks only.  For a comment created on an open
    pull request the handler goes on to fetch the pull request exactly when
    the body has such a line, and then every run starts with that fetch; so
    a comment with such a line between other lines passes the gate, whatever
    the other lines are.  A line with anything before the command is no such
    line: a body that is this one line does not match, and the handler
    returns [nil] at once, without a call. *)
Theorem pattern_is_multiline :
  (forall body,
      MatchString skipRe body = true
      <-> exists l, In l (lines (bytes body)) /\ isSkipLine (runes l))
  /\ (forall above line below,
        ~ In 10%Z (bytes line) ->
        isSkipLine (runes (bytes line)) ->
        MatchString skipRe (above ++ nl ++ line ++ nl ++ below) = true)
  /\ (forall pre cmd rest,
        pre <> [] ->
        Forall2 (fun vs c => In c vs) caseVariants cmd ->
        ~ isSkipLine (pre ++ cmd ++ rest))
  /\ (forall body pre cmd rest,
        ~ In 10%Z (bytes body) ->
        runes (bytes body) = (pre ++ cmd ++ rest)%list ->
        pre <> [] ->
        Forall2 (fun vs c => In c vs) caseVariants cmd ->
        MatchString skipRe body = false)
  /\ (forall FormatResponseRaw e honorOkToTest,
        IsPR e = true ->
        IssueState e = "open" ->
        Action e = GenericCommentActionCreated ->
        ((exists l, In l (lines (bytes (Body e))) /\ isSkipLine (runes l))
         <-> exists k,
               handle FormatResponseRaw e honorOkToTest
               = Call (GetPullRequest (org e) (repo e) (Number e)) k)
        /\ ((exists l, In l (lines (bytes (Body e))) /\ isSkipLine (runes l)) ->
            forall tr r,
              runs (handle FormatResponseRaw e honorOkToTest) tr r ->
              exists res tr',
                tr = EvGetPullRequest (org e) (repo e) (Number e) res :: tr')
        /\ (~ (exists l, In l (lines (bytes (Body e))) /\ isSkipLine (runes l)) ->
            handle FormatResponseRaw e honorOkToTest = Ret None))
  /\ (forall FormatResponseRaw e honorOkToTest above line below,
        IsPR e = true ->
        IssueState e = "open" ->
        Action e = GenericCommentActionCreated ->
        Body e = above ++ nl ++ line ++ nl ++ below ->
        ~ In 10%Z (bytes line) ->
        isSkipLine (runes (bytes line)) ->
        exists k,
          handle FormatResponseRaw e honorOkToTest
          = Call (GetPullRequest (org e) (repo e) (Number e)) k)
  /\ (forall FormatResponseRaw e honorOkToTest pre cmd rest,
        ~ In 10%Z (bytes (Body e)) ->
        runes (bytes (Body e)) = (pre ++ cmd ++ rest)%list ->
        pre <> [] ->
        Forall2 (fun vs c => In c vs) caseVariants cmd ->
        handle FormatResponseRaw e honorOkToTest = Ret None
        /\ forall tr r,
             runs (handle FormatResponseRaw e honorOkToTest) tr r ->
             tr = [] /\ r = None).
Proof.
  assert (forall above line below,
             ~ In 10%Z (bytes line) ->
             In (bytes line) (lines (bytes (above ++ nl ++ line ++ nl ++ below))))
    as Among.
  { intros above line below N.
    rewrite !bytes_app. change (bytes nl) with [10%Z]. cbn [app].
    rewrite !lines_app, (lines_no_nl (bytes line)) by assumption.
    apply in_or_app. right. now left. }
  assert (forall body pre cmd rest,
             ~ In 10%Z (bytes body) ->
             runes (bytes body) = (pre ++ cmd ++ rest)%list ->
             pre <> [] ->
             Forall2 (fun vs c => In c vs) caseVariants cmd ->
             ~ (exists l, In l (lines (bytes body)) /\ isSkipLine (runes l)))
    as Leading.
  { intros body pre cmd rest N E P V (l & Hin & L).
    rewrite lines_no_nl in Hin by assumption.
    destruct Hin as [<-|[]]. rewrite E in L.
    revert L. now apply leading_not_skipLine. }
  split; [exact MatchString_skipRe_iff|].
  split; [|split; [|split; [|split; [|split]]]].
  - intros above line below N L. apply MatchString_skipRe_iff.
    exists (bytes line). split; [now apply Among | assumption].
  - exact leading_not_skipLine.
  - intros body pre cmd rest N E P V.
    apply not_true_iff_false. intros M.
    apply MatchString_skipRe_iff in M.
    now apply (Leading body pre cmd rest).
  - intros FormatResponseRaw e honorOkToTest H1 H2 H3.
    split; [split|split].
    + intros L. apply handle_command. repeat split; assumption.
    + intros (k & K).
      destruct (MatchString skipRe (Body e)) eqn:M;
        [now apply MatchString_skipRe_iff|].
      exfalso.
      assert (~ isCommand e) as N.
      { intros (_ & _ & _ & L). apply MatchString_skipRe_iff in L. congruence. }
      rewrite (handle_ignored FormatResponseRaw honorOkToTest N) in K.
      discriminate K.
    + intros L tr r R.
      destruct (handle_command FormatResponseRaw honorOkToTest
                  (conj H1 (conj H2 (conj H3 L)))) as (k & K).
      rewrite K in R. cbn [runs Ev] in R.
      destruct R as (res & tr' & -> & _). now exists res, tr'.
    + intros N. apply handle_ignored. intros (_ & _ & _ & L). now apply N.
  - intros FormatResponseRaw e honorOkToTest above line below H1 H2 H3 B N L.
    apply handle_command. repeat split; try assumption.
    exists (bytes line). split; [|assumption].
    rewrite B. now apply Among.
  - intros FormatResponseRaw e honorOkToTest pre cmd rest N E P V.
    assert (handle FormatResponseRaw e honorOkToTest = Ret None) as Z.
    { apply handle_ignored. intros (_ & _ & _ & L).
      now apply (Leading (Body e) pre cmd rest). }
    split; [exact Z|]. rewrite Z. intros tr r [-> <-]. now split.
Qed.

End Multiline.


(** ** The theorems on a pull request *)

Section OnSample.

Import Sample.

Local Abbreviation handler := (handle plainResponse skipComment false).

Lemma sample_isCommand : isCommand skipComment.
Proof. apply guards_isCommand. split; reflexivity. Qed.

Lemma sample_runs (a : answers) (e : GenericCommentEvent) :
  runs (handle plainResponse e false) (fst (outcome a e)) (snd (outcome a e)).
Proof. apply run_runs. Qed.

(** The scenarios of the spec. *)
Example scenario_A :
  statusWrites (fst (outcome scenarioA skipComment)) = [(skipped lint, None)]
  /\ snd (outcome scenarioA skipComment) = None.
Proof. split; reflexivity. Qed.

Example scenario_B :
  statusWrites (fst (outcome scenarioB skipComment)) = []
  /\ snd (outcome scenarioB skipComment) = None.
Proof. split; reflexivity. Qed.

Example scenario_C :
  statusWrites (fst (outcome scenarioC skipComment)) = []
  /\ snd (outcome scenarioC skipComment) = None.
Proof. split; reflexivity. Qed.

Example scenario_D :
  statusWrites (fst (outcome scenarioD skipComment)) = []
  /\ snd (outcome scenarioD skipComment) = None.
Proof. split; reflexivity. Qed.

(** A success and a failure for [ci/lint]: nothing is written. *)
Example reported_twice :
  statusWrites (fst (outcome reportedTwice skipComment)) = [].
Proof. reflexivity. Qed.

(** Bodies that match and bodies that do not.  The last two have the long
    s (bytes C5 BF) and the Kelvin sign (bytes E2 84 AA) in the command. *)
Example bodies :
  map (MatchString skipRe)
      [ "/skip"; "/SKIP"; "/Skip  "; "/skip" ++ String "013" nl ++ "/test all";
        "/retest" ++ nl ++ "/skip" ++ nl; " /skip"; "please /skip"; "/skipx";
        "/skip now"; "/ski"; "";
        "/" ++ String "197" (String "191" "kip");
        "/s" ++ String "226" (String "132" (String "170" "ip")) ]
  = [ true; true; true; true; true; false; false; false; false; false; false;
      true; true ].
Proof. reflexivity. Qed.

(** Scenario A: one status is written, for [ci/lint]. *)
Lemma skip_actions_exact_witness :
  isCommand skipComment
  /\ CombinedState failing <> StatusSuccess
  /\ runs handler
          (fetches skipComment false pr7 [unit; lint] failing []
             ++ [ EvCreateStatus "org" "repo" "h1"
                    {| State := "success"; Description := "Skipped";
                       github.Context := "ci/lint" |} None ]) None.
Proof.
  assert (CombinedState failing <> StatusSuccess) as S by discriminate.
  split; [exact sample_isCommand|]. split; [exact S|].
  exact (proj1 (proj2 (@skip_actions_exact plainResponse skipComment false
                         pr7 [unit; lint] failing [] sample_isCommand S))).
Defined.

(** Scenario A: nothing is written for the required [unit]. *)
Lemma required_never_skipped_witness :
  ContextRequired unit = true
  /\ loopBody plainResponse skipComment pr7 (Statuses failing) [] unit
     = Ret Continue
  /\ exists j, In j [unit; lint] /\ ContextRequired j = false /\ j <> unit
               /\ skipped lint = skipped j.
Proof.
  destruct (@required_never_skipped plainResponse skipComment false unit
              eq_refl) as [H1 H2].
  split; [reflexivity|]. split; [apply H1|].
  apply (H2 pr7 [unit; lint] failing []
            [statusWrite skipComment pr7 None lint] None (skipped lint) None).
  - exact (sample_runs scenarioA skipComment).
  - left. reflexivity.
Defined.

(** Scenario B: nothing is written for [lint], which the trigger plugin
    will run. *)
Lemma overlap_never_skipped_witness :
  In (config.Name lint, config.Context lint) (overlap [lint])
  /\ loopBody plainResponse skipComment pr7 (Statuses failing) [lint] lint
     = Ret Continue.
Proof.
  assert (In (config.Name lint, config.Context lint) (overlap [lint])) as O
      by (left; reflexivity).
  split; [exact O|].
  apply (proj1 (@overlap_never_skipped plainResponse skipComment false
                  [lint] lint O)).
Defined.

(** Scenario C: the combined status is a success and nothing is written. *)
Lemma success_no_actions_witness :
  runs handler (fst (outcome scenarioC skipComment)) None
  /\ In (EvGetCombinedStatus "org" "repo" "h1" (inl green))
        (fst (outcome scenarioC skipComment))
  /\ CombinedState green = StatusSuccess
  /\ statusWrites (fst (outcome scenarioC skipComment)) = [].
Proof.
  assert (In (EvGetCombinedStatus "org" "repo" "h1" (inl green))
             (fst (outcome scenarioC skipComment))) as Hin
      by (right; right; left; reflexivity).
  split; [exact (sample_runs scenarioC skipComment)|].
  split; [exact Hin|]. split; [reflexivity|].
  exact (proj1 (@success_no_actions plainResponse skipComment false
                  (fst (outcome scenarioC skipComment)) None
                  "org" "repo" "h1" green
                  (sample_runs scenarioC skipComment) Hin eq_refl)).
Defined.

(** Scenario D: nothing is written for [flaky], which never posted a
    status. *)
Lemma unreported_never_skipped_witness :
  ~ (exists st, In st [] /\ github.Context st = config.Context flaky)
  /\ loopBody plainResponse skipComment pr7 [] [] flaky = Ret Continue.
Proof.
  assert (~ (exists st : Status,
                In st [] /\ github.Context st = config.Context flaky)) as U
      by (intros (st & [] & _)).
  split; [exact U|].
  apply (proj1 (@unreported_never_skipped plainResponse skipComment false
                  [] flaky U)).
Defined.

(** The second of three writes fails: the first stays, the third is not
    made. *)
Lemma status_write_fail_fast_witness :
  runs handler (fst (outcome writeFails skipComment)) None
  /\ exists done job rest,
       filter (eligible (Statuses (combined writeFails)) [])
              [unit; lint; flaky; docs]
       = (done ++ job :: rest)%list
       /\ [statusWrite skipComment pr7 None lint]
          = map (statusWrite skipComment pr7 None) done
       /\ skipped flaky = skipped job
       /\ [ EvWarn "Cannot update PR status for context ci/flaky: boom";
            EvCreateComment "org" "repo" 7
              "@alice: Cannot update PR status for context ci/flaky: boom"
              None ]
          = [ EvWarn ("Cannot update PR status for context "
                        ++ github.Context (skipped flaky) ++ ": " ++ Error boom);
              EvCreateComment (org skipComment) (repo skipComment)
                (Number skipComment)
                (plainResponse (Body skipComment) (HTMLURL skipComment)
                   (Login (EventUser skipComment))
                   ("Cannot update PR status for context "
                      ++ github.Context (skipped flaky) ++ ": " ++ Error boom))
                None ]
       /\ statusWrites
            [ EvWarn "Cannot update PR status for context ci/flaky: boom";
              EvCreateComment "org" "repo" 7
                "@alice: Cannot update PR status for context ci/flaky: boom"
                None ] = [].
Proof.
  split; [exact (sample_runs writeFails skipComment)|].
  exact (@status_write_fail_fast plainResponse skipComment false
           pr7 [unit; lint; flaky; docs] (combined writeFails) []
           [ statusWrite skipComment pr7 None lint;
             statusWrite skipComment pr7 (Some boom) flaky;
             EvWarn "Cannot update PR status for context ci/flaky: boom";
             EvCreateComment "org" "repo" 7
               "@alice: Cannot update PR status for context ci/flaky: boom"
               None ]
           None
           [statusWrite skipComment pr7 None lint]
           "org" "repo" "h1" (skipped flaky) boom
           [ EvWarn "Cannot update PR status for context ci/flaky: boom";
             EvCreateComment "org" "repo" 7
               "@alice: Cannot update PR status for context ci/flaky: boom"
               None ]
           (sample_runs writeFails skipComment) eq_refl).
Defined.

(** The pull request cannot be fetched: a warning, a comment, and the
    outcome of the comment. *)
Lemma fetch_failure_reported_witness :
  runs handler (fst (outcome noPullRequest skipComment)) None
  /\ fetchFailure boom (EvGetPullRequest "org" "repo" 7 (inr boom))
  /\ exists what,
       In what [ "Cannot get PR #";
                 "Cannot get combined commit statuses for PR #";
                 "Cannot get combined status for PR #" ]
       /\ [ EvWarn "Cannot get PR #7 in org/repo: boom";
         EvCreateComment "org" "repo" 7
           "@alice: Cannot get PR #7 in org/repo: boom" None ]
       = [ EvWarn (what ++ itoa (Number skipComment) ++ " in "
                        ++ org skipComment ++ "/" ++ repo skipComment
                        ++ ": " ++ Error boom);
           EvCreateComment (org skipComment) (repo skipComment)
             (Number skipComment)
             (plainResponse (Body skipComment) (HTMLURL skipComment)
                (Login (EventUser skipComment))
                (what ++ itoa (Number skipComment) ++ " in "
                      ++ org skipComment ++ "/" ++ repo skipComment
                      ++ ": " ++ Error boom)) None ].
Proof.
  split; [exact (sample_runs noPullRequest skipComment)|].
  split; [constructor|].
  exact (@fetch_failure_reported plainResponse skipComment false
           (fst (outcome noPullRequest skipComment)) None
           [] (EvGetPullRequest "org" "repo" 7 (inr boom))
           [ EvWarn "Cannot get PR #7 in org/repo: boom";
             EvCreateComment "org" "repo" 7
               "@alice: Cannot get PR #7 in org/repo: boom" None ]
           boom
           (sample_runs noPullRequest skipComment) eq_refl
           (failedPullRequest boom "org" "repo" 7)).
Defined.

(** The pull request cannot be fetched and the comment is posted: the
    handler returns [nil], not the error of the fetch. *)
Lemma fetch_failure_not_propagated :
  outcome noPullRequest skipComment
  = ([ EvGetPullRequest "org" "repo" 7 (inr boom);
       EvWarn "Cannot get PR #7 in org/repo: boom";
       EvCreateComment "org" "repo" 7
         "@alice: Cannot get PR #7 in org/repo: boom" None ], None)
  /\ ~ (forall tr r err,
          runs handler tr r ->
          In (EvGetPullRequest "org" "repo" 7 (inr err)) tr ->
          r = Some err).
Proof.
  split; [reflexivity|].
  intros H.
  specialize (H _ _ boom (sample_runs noPullRequest skipComment)
                (or_introl eq_refl)).
  discriminate H.
Qed.

(** A comment that only mentions the command is ignored. *)
Lemma gate_passes_commands_only_witness :
  MatchString skipRe (Body (comment "please /skip")) = false
  /\ handle plainResponse (comment "please /skip") false = Ret None.
Proof.
  split; [reflexivity|].
  apply (proj2 (@gate_passes_commands_only plainResponse
                  (comment "please /skip") false)).
  right. right. right. left. reflexivity.
Defined.

(** Two reports for [ci/lint], the first a success, the second a failure:
    [lint] counts as successful. *)
Lemma any_success_entry_wins_witness :
  github.Context (passed "ci/lint") = config.Context lint
  /\ State (passed "ci/lint") = StatusSuccess
  /\ isSuccess lint (Statuses twice) = true
  /\ loopBody plainResponse skipComment pr7 (Statuses twice) [] lint
     = Ret Continue.
Proof.
  destruct (@any_success_entry_wins plainResponse skipComment false
              [failed "ci/unit"] (passed "ci/lint") [failed "ci/lint"] lint
              eq_refl eq_refl) as (H1 & H2 & _).
  split; [reflexivity|]. split; [reflexivity|].
  split; [exact H1 | apply H2].
Defined.

(** The command in upper case, with blanks after it, between two other
    lines: the body matches and the handler goes on to fetch the pull
    request.  With a word before the command the handler returns at once. *)
Lemma pattern_is_multiline_witness :
  ~ In 10%Z (bytes "/SKIP  ")
  /\ isSkipLine (runes (bytes "/SKIP  "))
  /\ MatchString skipRe ("/test all" ++ nl ++ "/SKIP  " ++ nl ++ "thanks")
     = true
  /\ (exists k,
         handle plainResponse
                (comment ("/test all" ++ nl ++ "/SKIP  " ++ nl ++ "thanks"))
                false
         = Call (GetPullRequest "org" "repo" 7) k)
  /\ handle plainResponse (comment "please /skip") false = Ret None.
Proof.
  assert (~ In 10%Z (bytes "/SKIP  ")) as N
      by (cbn; intuition discriminate).
  assert (isSkipLine (runes (bytes "/SKIP  "))) as L
      by (apply skipLineb_iff; reflexivity).
  assert (~ In 10%Z (bytes (Body (comment "please /skip")))) as N'
      by (cbn; intuition discriminate).
  assert (Forall2 (fun vs c => In c vs) caseVariants (runes (bytes "/skip")))
    as V by (repeat constructor; cbn; tauto).
  assert (runes (bytes "please ") <> []) as P by discriminate.
  destruct pattern_is_multiline as (_ & T2 & _ & _ & _ & T6 & T7).
  split; [exact N|]. split; [exact L|].
  split; [exact (T2 "/test all" "/SKIP  " "thanks" N L)|].
  split.
  - exact (T6 plainResponse
              (comment ("/test all" ++ nl ++ "/SKIP  " ++ nl ++ "thanks"))
              false "/test all" "/SKIP  " "thanks"
              eq_refl eq_refl eq_refl eq_refl N L).
  - exact (proj1 (T7 plainResponse (comment "please /skip") false
                     (runes (bytes "please ")) (runes (bytes "/skip")) []
                     N' eq_refl P V)).
Defined.

End OnSample.

(** ** More on the runs of the handler *)

Section Calls.

Variable FormatResponseRaw : string -> string -> string -> string -> string.
Variable e : GenericCommentEvent.
Variable honorOkToTest : bool.

Local Abbreviation handler := (handle FormatResponseRaw e honorOkToTest).

Lemma no_comment_in_writes pr res jobs :
  Forall (fun ev => ~ isComment ev) (map (statusWrite e pr res) jobs).
Proof. apply Forall_forall. intros ev H. apply in_map_iff in H as (j & <- & _). exact id. Qed.

Lemma no_comment_splits (l before after : list event) (x : event) :
  Forall (fun ev => ~ isComment ev) l ->
  isComment x ->
  l <> (before ++ x :: after)%list.
Proof.
  intros F C ->. rewrite Forall_forall in F.
  apply (F x); [|exact C]. apply in_or_app. right. now left.
Qed.

(** In a trace that ends with a warning and a comment and has no other
    comment, a comment is the last event. *)
Lemma comment_last (pre : list event) (w : string) (c x : event) :
  forall before after,
    Forall (fun ev => ~ isComment ev) pre ->
    isComment x ->
    (pre ++ [EvWarn w; c] = before ++ x :: after)%list ->
    before = (pre ++ [EvWarn w])%list /\ x = c /\ after = [].
Proof.
  induction pre as [|p pre IH]; intros before after F C E.
  - destruct before as [|b0 before]; cbn [app] in E.
    + injection E as <- _. destruct C.
    + injection E as <- E.
      destruct before as [|b1 before]; cbn [app] in E.
      * injection E as <- <-. auto.
      * injection E as _ E. now destruct before.
  - inversion F as [|? ? Fp F']; subst.
    destruct before as [|b0 before]; cbn [app] in E.
    + injection E as <- _. contradiction.
    + injection E as <- E.
      destruct (IH _ _ F' C E) as (-> & -> & ->). auto.
Qed.

(** The shape of a run of the loop: successful writes, and then nothing or
    one failed write with its report. *)
Lemma looped_shape pr statuses fs jobs tr r :
  looped FormatResponseRaw e pr statuses fs jobs tr r ->
  exists done,
    (tr = map (statusWrite e pr None) done /\ r = None
     /\ filter (eligible statuses fs) jobs = done)
    \/ (exists job rest err,
          filter (eligible statuses fs) jobs = (done ++ job :: rest)%list
          /\ tr = ((map (statusWrite e pr None) done
                      ++ [statusWrite e pr (Some err) job])
                     ++ [ EvWarn (cannotUpdate job err);
                          EvCreateComment (org e) (repo e) (Number e)
                            (FormatResponseRaw (Body e) (HTMLURL e)
                               (Login (EventUser e)) (cannotUpdate job err)) r ])%list).
Proof.
  intros L.
  apply looped_prefix in L as [[-> ->]|(done & job & rest & err & F & ->)].
  - eexists. left. auto.
  - exists done. right. exists job, rest, err. split; [exact F|].
    now rewrite <- app_assoc.
Qed.

(** X1.  When the presubmits cannot be resolved, the handler stops after
    the two fetches: no warning, no comment, no status write, and the error
    it returns wraps the error of the resolution under the message
    [failed to get presubmits: ...]. *)
Theorem presubmits_failure_returned tr r i bb br hs err :
  runs handler tr r ->
  In (EvGetPresubmits i bb br hs (inr err)) tr ->
  r = Some (wrapError ("failed to get presubmits: " ++ Error err) err)
  /\ exists pr,
       tr = [ EvGetPullRequest (org e) (repo e) (Number e) (inl pr);
              EvGetPresubmits (org e ++ "/" ++ repo e) ""
                ("heads/" ++ Ref (Base pr)) (SHA (Head pr)) (inr err) ].
Proof.
  intros H Hin. apply handle_runs in H.
  inversion H as [N E1 E2|err' r' C E1 E2|pr' err' C E1 E2|pr' ps' err' r' C E1 E2
                  |pr' ps' cs' C S' E1 E2|pr' ps' cs' err' r' C S' E1 E2
                  |pr' ps' cs' fs' tr' r' C S' L E1 E2];
    subst; cbn [In reported] in Hin.
  - destruct Hin.
  - exfalso. intuition discriminate.
  - assert (err' = err) as -> by (intuition (discriminate || congruence)).
    split; [reflexivity|]. now exists pr'.
  - exfalso. intuition discriminate.
  - exfalso. intuition discriminate.
  - exfalso. intuition discriminate.
  - exfalso. apply in_app_or in Hin as [Hin|Hin].
    + cbn in Hin. intuition discriminate.
    + exact (looped_events L _ Hin).
Qed.

(** X2.  A comment is the last call of an invocation, so there is at most
    one.  It goes to the pull request of the event, right after a warning
    with the same text, and its outcome is the result of the handler. *)
Theorem comment_is_last tr r before o rp n c res after :
  runs handler tr r ->
  tr = (before ++ EvCreateComment o rp n c res :: after)%list ->
  after = [] /\ res = r
  /\ o = org e /\ rp = repo e /\ n = Number e
  /\ exists resp before',
       before = (before' ++ [EvWarn resp])%list
       /\ c = FormatResponseRaw (Body e) (HTMLURL e) (Login (EventUser e)) resp.
Proof.
  intros H E. apply handle_runs in H.
  assert (forall pre w,
             Forall (fun ev => ~ isComment ev) pre ->
             tr = (pre ++ [ EvWarn w;
                            EvCreateComment (org e) (repo e) (Number e)
                              (FormatResponseRaw (Body e) (HTMLURL e)
                                 (Login (EventUser e)) w) r ])%list ->
             after = [] /\ res = r
             /\ o = org e /\ rp = repo e /\ n = Number e
             /\ exists resp before',
                  before = (before' ++ [EvWarn resp])%list
                  /\ c = FormatResponseRaw (Body e) (HTMLURL e)
                           (Login (EventUser e)) resp) as K.
  { intros pre w F E'. rewrite E in E'. symmetry in E'.
    apply comment_last in E' as (-> & [= -> -> -> -> ->] & ->);
      [|assumption|exact I].
    repeat split. now exists w, pre. }
  assert (Forall (fun ev => ~ isComment ev) tr -> False) as Z.
  { intros F. now apply (no_comment_splits before after
                           (EvCreateComment o rp n c res) F I). }
  inversion H as [N E1 E2|err' r' C E1 E2|pr' err' C E1 E2|pr' ps' err' r' C E1 E2
                  |pr' ps' cs' C S' E1 E2|pr' ps' cs' err' r' C S' E1 E2
                  |pr' ps' cs' fs' tr' r' C S' L E1 E2].
  - exfalso. apply Z. rewrite <- E1. constructor.
  - apply (K [EvGetPullRequest (org e) (repo e) (Number e) (inr err')]
             (cannot "Cannot get PR #" e err')).
    + repeat constructor; exact id.
    + rewrite <- E1, E2. reflexivity.
  - exfalso. apply Z. rewrite <- E1. repeat constructor; exact id.
  - eapply (K [_; _; _]); [|rewrite <- E1, E2; reflexivity].
    repeat constructor; exact id.
  - exfalso. apply Z. rewrite <- E1. repeat constructor; exact id.
  - eapply (K [_; _; _; _]); [|rewrite <- E1, E2; reflexivity].
    repeat constructor; exact id.
  - apply looped_shape in L
      as (done & [(-> & -> & _)|(job & rest & err' & _ & ->)]).
    + exfalso. apply Z. rewrite <- E1. apply Forall_app. split.
      * repeat constructor; exact id.
      * apply no_comment_in_writes.
    + eapply (K (fetches e honorOkToTest pr' ps' cs' fs'
                   ++ map (statusWrite e pr' None) done
                   ++ [statusWrite e pr' (Some err') job])%list).
      * apply Forall_app. split; [repeat constructor; exact id|].
        apply Forall_app. split; [apply no_comment_in_writes|].
        repeat constructor; exact id.
      * rewrite <- E1, E2. now rewrite <- !app_assoc.
Qed.

(** X3.  An error returned by the handler is the wrapped error of the
    presubmits, or the error of the comment that the invocation ends with:
    the handler never returns the error of a fetch of the pull request, of
    the statuses or of the overlap, nor the error of a status write. *)
Theorem returned_error_origin tr r err :
  runs handler tr r ->
  r = Some err ->
  (exists pr perr,
      tr = [ EvGetPullRequest (org e) (repo e) (Number e) (inl pr);
             EvGetPresubmits (org e ++ "/" ++ repo e) ""
               ("heads/" ++ Ref (Base pr)) (SHA (Head pr)) (inr perr) ]
      /\ err = wrapError ("failed to get presubmits: " ++ Error perr) perr)
  \/ (exists before c,
        tr = (before ++ [EvCreateComment (org e) (repo e) (Number e) c
                           (Some err)])%list).
Proof.
  intros H ->. apply handle_runs in H.
  inversion H as [N E1 E2|err' r' C E1 E2|pr' err' C E1 E2|pr' ps' err' r' C E1 E2
                  |pr' ps' cs' C S' E1 E2|pr' ps' cs' err' r' C S' E1 E2
                  |pr' ps' cs' fs' tr' r' C S' L E1 E2]; subst.
  - right. unfold reported. eexists [_; _], _. reflexivity.
  - left. now exists pr', err'.
  - right. unfold reported. eexists [_; _; _; _], _. reflexivity.
  - right. unfold reported. eexists [_; _; _; _; _], _. reflexivity.
  - apply looped_shape in L
      as (done & [(_ & [=] & _)|(job & rest & err' & _ & ->)]).
    right. eexists _, _. rewrite !app_assoc.
    change [EvWarn (cannotUpdate job err');
            EvCreateComment (org e) (repo e) (Number e)
              (FormatResponseRaw (Body e) (HTMLURL e) (Login (EventUser e))
                 (cannotUpdate job err')) (Some err)]
      with ([EvWarn (cannotUpdate job err')]
              ++ [EvCreateComment (org e) (repo e) (Number e)
                    (FormatResponseRaw (Body e) (HTMLURL e)
                       (Login (EventUser e)) (cannotUpdate job err'))
                    (Some err)])%list.
    rewrite app_assoc. reflexivity.
Qed.

End Calls.

(** ** More on the status writes *)

Section StatusWrites.

Variable FormatResponseRaw : string -> string -> string -> string -> string.
Variable e : GenericCommentEvent.
Variable honorOkToTest : bool.

Local Abbreviation handler := (handle FormatResponseRaw e honorOkToTest).

Lemma filter_none {A : Type} (f : A -> bool) (l : list A) :
  (forall x, In x l -> f x = false) -> filter f l = [].
Proof.
  induction l as [|a l IH]; intros H; [reflexivity|].
  cbn [filter]. rewrite (H a) by now left.
  apply IH. intros x Hx. apply H. now right.
Qed.

Lemma NoDup_map_filter {A B : Type} (g : A -> B) (f : A -> bool) (l : list A) :
  NoDup (map g l) -> NoDup (map g (filter f l)).
Proof.
  induction l as [|a l IH]; intros N; [constructor|].
  cbn [map] in N. inversion N as [|? ? Ha N']; subst.
  cbn [filter]. destruct (f a); [|now apply IH].
  cbn [map]. constructor; [|now apply IH].
  intros Hin. apply Ha. apply in_map_iff in Hin as (x & <- & Hx).
  apply in_map. now apply filter_In in Hx as [? _].
Qed.

Lemma NoDup_prefix {A : Type} (a b : list A) : NoDup (a ++ b) -> NoDup a.
Proof.
  induction a as [|x a IH]; intros N; [constructor|].
  cbn [app] in N. inversion N as [|? ? Hx N']; subst.
  constructor; [|now apply IH].
  intros Hin. apply Hx. apply in_or_app. now left.
Qed.

(** The statuses written by a run of the loop are those of the eligible
    jobs up to some point. *)
Lemma looped_written pr statuses fs jobs tr r :
  looped FormatResponseRaw e pr statuses fs jobs tr r ->
  exists done rest,
    filter (eligible statuses fs) jobs = (done ++ rest)%list
    /\ map fst (statusWrites tr) = map skipped done.
Proof.
  intros L.
  apply looped_prefix in L as [[-> ->]|(done & job & rest & err & F & ->)].
  - exists (filter (eligible statuses fs) jobs), [].
    rewrite app_nil_r, statusWrites_map, map_map. auto.
  - exists (done ++ [job])%list, rest. rewrite <- app_assoc. split; [exact F|].
    rewrite statusWrites_app, statusWrites_map. cbn.
    now rewrite !map_app, map_map.
Qed.

(** X4.  No status is written before the pull request, the presubmits, the
    combined status and the overlap have all been fetched with success: a
    run with a status write starts with the four fetches, for a command and
    a combined status that is not a success. *)
Theorem no_write_before_fetches tr r :
  runs handler tr r ->
  statusWrites tr <> [] ->
  isCommand e
  /\ exists pr ps cs fs tr',
       tr = (fetches e honorOkToTest pr ps cs fs ++ tr')%list
       /\ CombinedState cs <> StatusSuccess.
Proof.
  intros H W. apply handle_runs in H.
  inversion H as [N E1 E2|err' r' C E1 E2|pr' err' C E1 E2|pr' ps' err' r' C E1 E2
                  |pr' ps' cs' C S' E1 E2|pr' ps' cs' err' r' C S' E1 E2
                  |pr' ps' cs' fs' tr' r' C S' L E1 E2];
    subst; try (exfalso; apply W; reflexivity).
  split; [exact C|]. now exists pr', ps', cs', fs', tr'.
Qed.

(** X5.  Every status write of a run, failed or not, goes to the repository
    of the event at the head commit of the pull request that was fetched, and
    carries the state [success], the description [Skipped] and the context
    of a configured check. *)
Theorem writes_target_head pr ps cs fs tr r o rp ref s res :
  runs handler (fetches e honorOkToTest pr ps cs fs ++ tr) r ->
  In (EvCreateStatus o rp ref s res) tr ->
  o = org e /\ rp = repo e /\ ref = SHA (Head pr)
  /\ State s = StatusSuccess /\ Description s = "Skipped"
  /\ exists job, In job ps /\ github.Context s = config.Context job.
Proof.
  intros H Hin. apply runs_fetches in H as (_ & _ & L).
  induction L as [|job rest tr r E _ IH|job rest tr r E _ IH|job rest err r E].
  - destruct Hin.
  - destruct (IH Hin) as (? & ? & ? & ? & ? & j & ? & ?).
    repeat split; try assumption. exists j. split; [now right | assumption].
  - destruct Hin as [[= <- <- <- <- <-]|Hin].
    + repeat split. exists job. split; [now left | reflexivity].
    + destruct (IH Hin) as (? & ? & ? & ? & ? & j & ? & ?).
      repeat split; try assumption. exists j. split; [now right | assumption].
  - cbn in Hin. destruct Hin as [[= <- <- <- <- <-]|[[=]|[[=]|[]]]].
    repeat split. exists job. split; [now left | reflexivity].
Qed.

(** X6.  Whether or not a write fails, the statuses that a run writes are
    the first ones of the sequence that a run without failure writes, and
    there are at most as many as configured checks. *)
Theorem writes_are_a_prefix pr ps cs fs tr r :
  runs handler (fetches e honorOkToTest pr ps cs fs ++ tr) r ->
  (exists n,
      map fst (statusWrites tr)
      = firstn n (map skipped (filter (eligible (Statuses cs) fs) ps)))
  /\ (List.length (statusWrites tr) <= List.length ps)%nat.
Proof.
  intros H. apply runs_fetches in H as (_ & _ & L).
  apply looped_written in L as (done & rest & F & W).
  assert (map fst (statusWrites tr)
          = firstn (List.length done)
                   (map skipped (filter (eligible (Statuses cs) fs) ps))) as P.
  { rewrite W, F, map_app.
    rewrite <- (length_map skipped done), firstn_app, Nat.sub_diag, firstn_all.
    cbn [firstn]. now rewrite app_nil_r. }
  split; [now exists (List.length done)|].
  rewrite <- (length_map fst), W, length_map.
  pose proof (filter_length_le (eligible (Statuses cs) fs) ps) as B.
  rewrite F, length_app in B. lia.
Qed.

(** X7.  When the configured checks have distinct contexts, a run writes at
    most one status for a context. *)
Theorem writes_distinct_contexts pr ps cs fs tr r :
  runs handler (fetches e honorOkToTest pr ps cs fs ++ tr) r ->
  NoDup (map config.Context ps) ->
  NoDup (writtenContexts tr).
Proof.
  intros H N. apply runs_fetches in H as (_ & _ & L).
  apply looped_written in L as (done & rest & F & W).
  unfold writtenContexts.
  rewrite <- (map_map fst github.Context), W, map_map. cbn [skipped github.Context].
  apply (NoDup_map_filter config.Context (eligible (Statuses cs) fs)) in N.
  rewrite F, map_app in N. now apply NoDup_prefix in N.
Qed.

(** X8.  An invocation in which no call fails is silent: it logs no
    warning, posts no comment and returns [nil]. *)
Theorem silent_without_failure tr r :
  runs handler tr r ->
  Forall succeeded tr ->
  r = None /\ Forall (fun ev => ~ isReport ev) tr.
Proof.
  intros H F. apply handle_runs in H.
  inversion H as [N E1 E2|err' r' C E1 E2|pr' err' C E1 E2|pr' ps' err' r' C E1 E2
                  |pr' ps' cs' C S' E1 E2|pr' ps' cs' err' r' C S' E1 E2
                  |pr' ps' cs' fs' tr' r' C S' L E1 E2];
    subst.
  - split; [reflexivity | constructor].
  - exfalso. inversion F as [|? ? X _]. exact X.
  - exfalso. inversion F as [|? ? _ F1]. inversion F1 as [|? ? X _]. exact X.
  - exfalso. inversion F as [|? ? _ F1]. inversion F1 as [|? ? _ F2].
    inversion F2 as [|? ? X _]. exact X.
  - split; [reflexivity | repeat constructor; exact id].
  - exfalso. inversion F as [|? ? _ F1]. inversion F1 as [|? ? _ F2].
    inversion F2 as [|? ? _ F3]. inversion F3 as [|? ? X _]. exact X.
  - apply Forall_app in F as [_ F].
    apply looped_prefix in L as [[-> ->]|(done & job & rest & err & _ & ->)].
    + split; [reflexivity|]. apply Forall_app. split.
      * repeat constructor; exact id.
      * apply Forall_forall. intros ev Hev.
        apply in_map_iff in Hev as (j & <- & _). exact id.
    + exfalso. apply Forall_app in F as [_ F].
      inversion F as [|? ? X _]. exact X.
Qed.

(** X16.  When no check is configured, or when the combined status has no
    entry, the loop makes no call and the handler returns [nil]. *)
Theorem nothing_to_skip pr ps cs fs tr r :
  runs handler (fetches e honorOkToTest pr ps cs fs ++ tr) r ->
  ps = [] \/ Statuses cs = [] ->
  tr = [] /\ r = None.
Proof.
  intros H D. apply runs_fetches in H as (_ & _ & L).
  assert (filter (eligible (Statuses cs) fs) ps = []) as F.
  { destruct D as [->| ->]; [reflexivity|].
    apply filter_none. intros job _. reflexivity. }
  apply looped_prefix in L as [[-> ->]|(done & job & rest & err & F' & _)].
  - now rewrite F.
  - rewrite F in F'. now destruct done.
Qed.

End StatusWrites.

(** ** The scans over the statuses and over the overlap *)

Section Scans.

Variable FormatResponseRaw : string -> string -> string -> string -> string.
Variable e : GenericCommentEvent.

Lemma existsb_members {A : Type} (f : A -> bool) (l1 l2 : list A) :
  (forall x, In x l1 <-> In x l2) -> existsb f l1 = existsb f l2.
Proof.
  intros H. apply eq_true_iff_eq. rewrite !existsb_exists.
  split; intros (x & Hx & Hf); exists x; (split; [now apply H | exact Hf]).
Qed.

(** X11.  The two scans over the statuses distribute over concatenation,
    and a success entry for a job is in particular an entry for it. *)
Theorem scans_over_append job (a b : list Status) :
  statusExists job (a ++ b) = statusExists job a || statusExists job b
  /\ isSuccess job (a ++ b) = isSuccess job a || isSuccess job b
  /\ (isSuccess job a = true -> statusExists job a = true).
Proof.
  rewrite !statusExists_existsb, !isSuccess_existsb, !existsb_app.
  repeat split.
  rewrite !existsb_exists. intros (st & Hin & H).
  exists st. split; [exact Hin|]. now apply andb_true_iff in H as [H _].
Qed.

(** X10.  The decision on a job depends on which status entries and which
    filtered presubmits there are, not on their order or on repetitions: two
    status lists with the same entries and two overlap lists with the same
    presubmits give the same iteration of the loop. *)
Theorem decision_ignores_order pr job (s1 s2 : list Status)
        (f1 f2 : list Presubmit) :
  (forall st, In st s1 <-> In st s2) ->
  (forall p, In p f1 <-> In p f2) ->
  statusExists job s1 = statusExists job s2
  /\ isSuccess job s1 = isSuccess job s2
  /\ triggerWillHandle f1 job = triggerWillHandle f2 job
  /\ loopBody FormatResponseRaw e pr s1 f1 job
     = loopBody FormatResponseRaw e pr s2 f2 job.
Proof.
  intros Hs Hf.
  assert (statusExists job s1 = statusExists job s2) as A
      by (rewrite !statusExists_existsb; now apply existsb_members).
  assert (isSuccess job s1 = isSuccess job s2) as B
      by (rewrite !isSuccess_existsb; now apply existsb_members).
  assert (triggerWillHandle f1 job = triggerWillHandle f2 job) as C
      by (rewrite !triggerWillHandle_existsb; now apply existsb_members).
  repeat split; try assumption.
  unfold loopBody. now rewrite A, B, C.
Qed.

(** X9.  Skipping is idempotent.  Take the statuses after a run without
    failure: the statuses written are among them, every entry is one of
    those or an earlier entry, and the earlier success entries are still
    there.  With them the loop over the same checks makes no call. *)
Theorem second_skip_writes_nothing pr statuses fs ps statuses' :
  (forall job, In job (filter (eligible statuses fs) ps) ->
               In (skipped job) statuses') ->
  (forall st, In st statuses' ->
              In st (map skipped (filter (eligible statuses fs) ps))
              \/ In st statuses) ->
  (forall st, In st statuses -> State st = StatusSuccess -> In st statuses') ->
  forRange ps (loopBody FormatResponseRaw e pr statuses' fs) (Ret None)
  = Ret None.
Proof.
  intros H1 H2 H3.
  assert (forall job, In job ps -> eligible statuses' fs job = false) as K.
  { intros job Hjob. apply not_true_iff_false. intros E'.
    apply eligible_iff in E' as ((st & Hst & Hc) & NS & NO & NR).
    destruct (eligible statuses fs job) eqn:E.
    - apply NS. exists (skipped job). split; [|now split].
      apply H1. apply filter_In. now split.
    - apply not_true_iff_false in E. apply E. apply eligible_iff.
      split; [|split; [|now split]].
      + destruct (H2 _ Hst) as [Hn|Ho].
        * exfalso. apply NS. exists st. split; [exact Hst|].
          split; [exact Hc|].
          apply in_map_iff in Hn as (j & <- & _). reflexivity.
        * now exists st.
      + intros (st' & Hst' & Hc' & Hs'). apply NS. exists st'.
        split; [now apply H3|]. now split. }
  clear H1 H2 H3.
  induction ps as [|job rest IH]; [reflexivity|].
  cbn [forRange].
  rewrite (loopBody_continue FormatResponseRaw e pr _ _ _ (K job (or_introl eq_refl))).
  cbn [bind]. apply IH. intros j Hj. apply K. now right.
Qed.

End Scans.

(** ** The entry point and the trigger configuration *)

Section EntryPoint.

Variable FormatResponseRaw : string -> string -> string -> string -> string.

Lemma setHonor_looped e pr statuses fs jobs tr r h :
  looped FormatResponseRaw e pr statuses fs jobs tr r ->
  map (setHonor h) tr = tr.
Proof.
  intros L. rewrite <- (map_id tr) at 2. apply map_ext_in.
  intros ev Hev. pose proof (looped_events L ev Hev) as X.
  now destruct ev.
Qed.

(** The flag reaches the request to [trigger.FilterPresubmits] and nothing
    else: with another flag the handler has the same runs, up to that
    request. *)
Lemma handle_setHonor e h h' tr r :
  runs (handle FormatResponseRaw e h) tr r ->
  runs (handle FormatResponseRaw e h') (map (setHonor h') tr) r.
Proof.
  rewrite !handle_runs. intros H.
  inversion H as [N E1 E2|err' r' C E1 E2|pr' err' C E1 E2|pr' ps' err' r' C E1 E2
                  |pr' ps' cs' C S' E1 E2|pr' ps' cs' err' r' C S' E1 E2
                  |pr' ps' cs' fs' tr' r' C S' L E1 E2];
    subst; unfold reported; cbn [map setHonor].
  - now apply handled_ignored.
  - now apply handled_no_pr.
  - now apply handled_no_presubmits.
  - now apply handled_no_status.
  - now apply handled_success.
  - now apply handled_no_overlap.
  - rewrite map_app, (setHonor_looped h' L).
    change (map (setHonor h') (fetches e h pr' ps' cs' fs'))
      with (fetches e h' pr' ps' cs' fs').
    now apply handled_loop.
Qed.

Variable Configuration : Type.
Variable Trigger : Type.
Variable TriggerFor : Configuration -> string -> string -> Trigger.
Variable HonorOkToTest : Trigger -> bool.

Local Abbreviation entry :=
  (handleGenericComment FormatResponseRaw TriggerFor HonorOkToTest).

(** X12.  The plugin configuration reaches the handler through one flag, and
    the flag reaches one request: under another configuration the entry
    point makes the same calls and returns the same result when it gets the
    same answers, but for the flag in the request for the overlap; the
    statuses written are the same. *)
Theorem configuration_reaches_overlap_only c c' e tr r :
  runs (entry c e) tr r ->
  let h' := HonorOkToTest (TriggerFor c' (org e) (repo e)) in
  runs (entry c' e) (map (setHonor h') tr) r
  /\ statusWrites (map (setHonor h') tr) = statusWrites tr.
Proof.
  intros H h'. split.
  - now apply handle_setHonor
      with (h := HonorOkToTest (TriggerFor c (org e) (repo e))).
  - clear H. induction tr as [|ev tr' IH]; [reflexivity|].
    destruct ev; cbn [map setHonor statusWrites]; now rewrite IH.
Qed.

End EntryPoint.

(** ** More on the command pattern *)

Section Commands.

Lemma length_bytes (s : string) : List.length (bytes s) = String.length s.
Proof.
  unfold bytes. rewrite length_map.
  induction s as [|c s IH]; [reflexivity|]. cbn. now rewrite IH.
Qed.

Lemma length_decode (n : nat) : forall s,
  (List.length s <= n)%nat -> (List.length (decode n s) <= List.length s)%nat.
Proof.
  induction n as [|n IH]; intros s Hn.
  - destruct s; cbn; lia.
  - destruct s as [|s0 t]; [cbn; lia|].
    cbn [decode].
    pose proof (Decode_width s0 t) as W.
    destruct (DecodeRuneInString (s0 :: t)) as [r w]. cbn [snd] in W.
    cbn [List.length] in *.
    assert (List.length (skipn w (s0 :: t)) <= n)%nat as B
        by (rewrite length_skipn; cbn [List.length]; lia).
    specialize (IH _ B). rewrite length_skipn in IH.
    cbn [List.length] in IH. lia.
Qed.

Lemma length_lines (s : list Z) : forall l,
  In l (lines s) -> (List.length l <= List.length s)%nat.
Proof.
  induction s as [|c t IH]; intros l Hin.
  - destruct Hin as [<-|[]]. reflexivity.
  - cbn [lines] in Hin. destruct (c =? 10)%Z.
    + destruct Hin as [<-|Hin]; [cbn; lia|].
      specialize (IH _ Hin). cbn [List.length]. lia.
    + destruct (lines t) as [|l0 ls] eqn:E; [now apply lines_nonempty in E|].
      destruct Hin as [<-|Hin].
      * specialize (IH l0 (or_introl eq_refl)). cbn [List.length]. lia.
      * specialize (IH l (or_intror Hin)). cbn [List.length]. lia.
Qed.

Lemma app_same_length {A : Type} (a a' b b' : list A) :
  List.length a = List.length a' ->
  (a ++ b = a' ++ b')%list -> a = a' /\ b = b'.
Proof.
  revert a'. induction a as [|x a IH]; intros [|x' a'] L E;
    try discriminate L.
  - now split.
  - cbn [app] in E. injection E as -> E. injection L as L.
    destruct (IH _ L E) as [-> ->]. now split.
Qed.

(** X13.  A body of two parts joined by a line feed matches exactly when
    one of the parts does: lines added before or after a comment never change
    whether the comment holds the command. *)
Theorem match_is_per_line (a b : string) :
  MatchString skipRe (a ++ nl ++ b)
  = MatchString skipRe a || MatchString skipRe b.
Proof.
  rewrite !MatchString_skipRe, !bytes_app.
  change (bytes nl) with [10%Z]. cbn [app].
  now rewrite lines_app, existsb_app.
Qed.

(** X14.  A body that matches has at least the five bytes of the command;
    the empty body does not match. *)
Theorem match_needs_five_bytes (body : string) :
  MatchString skipRe body = true -> (5 <= String.length body)%nat.
Proof.
  intros M. apply MatchString_skipRe_iff in M as (l & Hin & cmd & ws & E & V & _).
  apply length_lines in Hin. rewrite length_bytes in Hin.
  pose proof (@length_decode (List.length l) l (Nat.le_refl _)) as D.
  fold (runes l) in D. rewrite E, length_app in D.
  apply Forall2_length in V. cbn in V. lia.
Qed.

(** X15.  The command takes no argument: a line on which something other
    than a blank follows the command, directly or after blanks, is not the
    command, and a body that is this one line does not match. *)
Theorem arguments_are_rejected :
  (forall cmd ws c rest,
      Forall2 (fun vs c => In c vs) caseVariants cmd ->
      isBlank c = false ->
      ~ isSkipLine (cmd ++ ws ++ c :: rest))
  /\ (forall body cmd ws c rest,
        ~ In 10%Z (bytes body) ->
        runes (bytes body) = (cmd ++ ws ++ c :: rest)%list ->
        Forall2 (fun vs c => In c vs) caseVariants cmd ->
        isBlank c = false ->
        MatchString skipRe body = false).
Proof.
  assert (forall cmd ws c rest,
             Forall2 (fun vs c => In c vs) caseVariants cmd ->
             isBlank c = false ->
             ~ isSkipLine (cmd ++ ws ++ c :: rest)) as K.
  { intros cmd ws c rest V B (cmd' & ws' & E & V' & F).
    apply app_same_length in E as [_ <-].
    - rewrite Forall_forall in F.
      assert (isBlank c = true) as T
          by (apply F; apply in_or_app; right; now left).
      congruence.
    - apply Forall2_length in V, V'. congruence. }
  split; [exact K|].
  intros body cmd ws c rest N E V B.
  apply not_true_iff_false. intros M.
  apply MatchString_skipRe_iff in M as (l & Hin & L).
  rewrite lines_no_nl in Hin by assumption.
  destruct Hin as [<-|[]]. rewrite E in L.
  revert L. now apply K.
Qed.

End Commands.

(** ** The further properties on a pull request *)

Section OnCases.

Import Sample.

Local Abbreviation handler := (handle plainResponse skipComment false).

Lemma presubmits_fail :
  runs handler
       [ EvGetPullRequest "org" "repo" 7 (inl pr7);
         EvGetPresubmits "org/repo" "" "heads/main" "h1" (inr boom) ]
       (Some (Errorf "failed to get presubmits" boom)).
Proof.
  apply handle_runs.
  exact (handled_no_presubmits plainResponse false pr7 boom sample_isCommand).
Qed.

(** The presubmits cannot be resolved: two calls, and the wrapped error. *)
Lemma presubmits_failure_returned_witness :
  In (EvGetPresubmits "org/repo" "" "heads/main" "h1" (inr boom))
     [ EvGetPullRequest "org" "repo" 7 (inl pr7);
       EvGetPresubmits "org/repo" "" "heads/main" "h1" (inr boom) ]
  /\ Some (Errorf "failed to get presubmits" boom)
     = Some (wrapError "failed to get presubmits: boom" boom).
Proof.
  assert (In (EvGetPresubmits "org/repo" "" "heads/main" "h1" (inr boom))
             [ EvGetPullRequest "org" "repo" 7 (inl pr7);
               EvGetPresubmits "org/repo" "" "heads/main" "h1" (inr boom) ])
    as Hin by (right; left; reflexivity).
  split; [exact Hin|].
  exact (proj1 (@presubmits_failure_returned plainResponse skipComment false
                  _ _ "org/repo" "" "heads/main" "h1" boom
                  presubmits_fail Hin)).
Defined.

(** The pull request cannot be fetched: the comment is the third and last
    call. *)
Lemma comment_is_last_witness :
  runs handler (fst (outcome noPullRequest skipComment)) None
  /\ (@nil event = [] /\ (None : option error) = None
      /\ "org" = org skipComment /\ "repo" = repo skipComment
      /\ 7%Z = Number skipComment
      /\ exists resp before',
           [ EvGetPullRequest "org" "repo" 7 (inr boom);
             EvWarn "Cannot get PR #7 in org/repo: boom" ]
           = (before' ++ [EvWarn resp])%list
           /\ "@alice: Cannot get PR #7 in org/repo: boom"
              = plainResponse (Body skipComment) (HTMLURL skipComment)
                  (Login (EventUser skipComment)) resp).
Proof.
  split; [exact (sample_runs noPullRequest skipComment)|].
  exact (@comment_is_last plainResponse skipComment false
           (fst (outcome noPullRequest skipComment)) None
           [ EvGetPullRequest "org" "repo" 7 (inr boom);
             EvWarn "Cannot get PR #7 in org/repo: boom" ]
           "org" "repo" 7%Z "@alice: Cannot get PR #7 in org/repo: boom"
           None [] (sample_runs noPullRequest skipComment) eq_refl).
Defined.

(** Neither the pull request nor the comment: the error returned is that
    of the comment. *)
Lemma returned_error_origin_witness :
  runs handler (fst (outcome Failures.commentFails skipComment)) (Some boom)
  /\ ((exists pr perr,
          fst (outcome Failures.commentFails skipComment)
          = [ EvGetPullRequest (org skipComment) (repo skipComment)
                (Number skipComment) (inl pr);
              EvGetPresubmits (org skipComment ++ "/" ++ repo skipComment) ""
                ("heads/" ++ Ref (Base pr)) (SHA (Head pr)) (inr perr) ]
          /\ boom = wrapError ("failed to get presubmits: " ++ Error perr) perr)
      \/ (exists before c,
            fst (outcome Failures.commentFails skipComment)
            = (before ++ [EvCreateComment (org skipComment) (repo skipComment)
                            (Number skipComment) c (Some boom)])%list)).
Proof.
  split; [exact (sample_runs Failures.commentFails skipComment)|].
  exact (@returned_error_origin plainResponse skipComment false
           (fst (outcome Failures.commentFails skipComment)) (Some boom) boom
           (sample_runs Failures.commentFails skipComment) eq_refl).
Defined.

(** Scenario A has a status write, after the four fetches. *)
Lemma no_write_before_fetches_witness :
  statusWrites (fst (outcome scenarioA skipComment)) <> []
  /\ isCommand skipComment
  /\ exists pr ps cs fs tr',
       fst (outcome scenarioA skipComment)
       = (fetches skipComment false pr ps cs fs ++ tr')%list
       /\ CombinedState cs <> StatusSuccess.
Proof.
  assert (statusWrites (fst (outcome scenarioA skipComment)) <> []) as W
      by discriminate.
  split; [exact W|].
  exact (@no_write_before_fetches plainResponse skipComment false
           (fst (outcome scenarioA skipComment)) None
           (sample_runs scenarioA skipComment) W).
Defined.

(** Scenario A: the write goes to [org/repo] at [h1]. *)
Lemma writes_target_head_witness :
  "org" = org skipComment /\ "repo" = repo skipComment
  /\ "h1" = SHA (Head pr7)
  /\ State (skipped lint) = StatusSuccess
  /\ Description (skipped lint) = "Skipped"
  /\ exists job, In job [unit; lint]
                 /\ github.Context (skipped lint) = config.Context job.
Proof.
  exact (@writes_target_head plainResponse skipComment false
           pr7 [unit; lint] failing []
           [statusWrite skipComment pr7 None lint] None
           "org" "repo" "h1" (skipped lint) None
           (sample_runs scenarioA skipComment) (or_introl eq_refl)).
Defined.

(** The second of three writes fails: two statuses, the first two of
    three. *)
Lemma writes_are_a_prefix_witness :
  (exists n,
      map fst (statusWrites
                 [ statusWrite skipComment pr7 None lint;
                   statusWrite skipComment pr7 (Some boom) flaky;
                   EvWarn "Cannot update PR status for context ci/flaky: boom";
                   EvCreateComment "org" "repo" 7
                     "@alice: Cannot update PR status for context ci/flaky: boom"
                     None ])
      = firstn n (map skipped
                      (filter (eligible (Statuses (combined writeFails)) [])
                              [unit; lint; flaky; docs])))
  /\ (List.length
        (statusWrites
           [ statusWrite skipComment pr7 None lint;
             statusWrite skipComment pr7 (Some boom) flaky;
             EvWarn "Cannot update PR status for context ci/flaky: boom";
             EvCreateComment "org" "repo" 7
               "@alice: Cannot update PR status for context ci/flaky: boom"
               None ])
      <= List.length [unit; lint; flaky; docs])%nat.
Proof.
  exact (@writes_are_a_prefix plainResponse skipComment false
           pr7 [unit; lint; flaky; docs] (combined writeFails) [] _ None
           (sample_runs writeFails skipComment)).
Defined.

(** Scenario A: the contexts are distinct, and so are the contexts
    written. *)
Lemma writes_distinct_contexts_witness :
  NoDup (map config.Context [unit; lint])
  /\ NoDup (writtenContexts [statusWrite skipComment pr7 None lint]).
Proof.
  assert (NoDup (map config.Context [unit; lint])) as N.
  { cbn. constructor; [|constructor; [|constructor]]; cbn; intuition discriminate. }
  split; [exact N|].
  exact (@writes_distinct_contexts plainResponse skipComment false
           pr7 [unit; lint] failing [] _ None
           (sample_runs scenarioA skipComment) N).
Defined.

(** Scenario A: nothing fails, and there is no warning and no comment. *)
Lemma silent_without_failure_witness :
  Forall succeeded (fst (outcome scenarioA skipComment))
  /\ (None : option error) = None
  /\ Forall (fun ev => ~ isReport ev) (fst (outcome scenarioA skipComment)).
Proof.
  assert (Forall succeeded (fst (outcome scenarioA skipComment))) as F
      by (repeat constructor).
  split; [exact F|].
  exact (@silent_without_failure plainResponse skipComment false
           (fst (outcome scenarioA skipComment)) None
           (sample_runs scenarioA skipComment) F).
Defined.

(** Scenario D: no status entry, no call in the loop. *)
Lemma nothing_to_skip_witness :
  ([flaky] = [] \/ Statuses (combined scenarioD) = [])
  /\ (@nil event = [] /\ (None : option error) = None).
Proof.
  split; [right; reflexivity|].
  exact (@nothing_to_skip plainResponse skipComment false
           pr7 [flaky] (combined scenarioD) [] [] None
           (sample_runs scenarioD skipComment) (or_intror eq_refl)).
Defined.

(** Scenario A once more, after the status of [lint] was written. *)
Lemma second_skip_writes_nothing_witness :
  forRange [unit; lint]
           (loopBody plainResponse skipComment pr7 Failures.afterSkip [])
           (Ret None)
  = Ret None.
Proof.
  apply (@second_skip_writes_nothing plainResponse skipComment pr7
           (Statuses failing) [] [unit; lint] Failures.afterSkip).
  - intros job [<-|[]]. right. left. reflexivity.
  - intros st [<-|[<-|[]]].
    + right. left. reflexivity.
    + left. left. reflexivity.
  - intros st [<-|[<-|[]]]; discriminate.
Defined.

(** The two entries of scenario A in the other order, one of them twice. *)
Lemma decision_ignores_order_witness :
  loopBody plainResponse skipComment pr7
           [failed "ci/unit"; failed "ci/lint"] [lint; unit] lint
  = loopBody plainResponse skipComment pr7
             [failed "ci/lint"; failed "ci/unit"; failed "ci/lint"]
             [unit; lint; unit] lint.
Proof.
  apply (@decision_ignores_order plainResponse skipComment pr7 lint
           [failed "ci/unit"; failed "ci/lint"]
           [failed "ci/lint"; failed "ci/unit"; failed "ci/lint"]
           [lint; unit] [unit; lint; unit]).
  - intros st. cbn. tauto.
  - intros p. cbn. tauto.
Defined.

(** Scenario A under a configuration that honours [/ok-to-test] for the
    repository: the same writes. *)
Lemma configuration_reaches_overlap_only_witness :
  runs (SampleAgent.entry [] skipComment)
       (fst (outcome scenarioA skipComment)) None
  /\ runs (SampleAgent.entry [("org", "repo")] skipComment)
          (map (setHonor true) (fst (outcome scenarioA skipComment))) None
  /\ statusWrites (map (setHonor true) (fst (outcome scenarioA skipComment)))
     = statusWrites (fst (outcome scenarioA skipComment)).
Proof.
  split; [exact (sample_runs scenarioA skipComment)|].
  exact (@configuration_reaches_overlap_only plainResponse
           SampleAgent.configuration bool
           SampleAgent.triggerFor SampleAgent.honorOkToTest
           [] [("org", "repo")] skipComment
           (fst (outcome scenarioA skipComment)) None
           (sample_runs scenarioA skipComment)).
Defined.

(** The command alone has five bytes. *)
Lemma match_needs_five_bytes_witness :
  MatchString skipRe "/skip" = true /\ (5 <= String.length "/skip")%nat.
Proof.
  split; [reflexivity|].
  exact (@match_needs_five_bytes "/skip" eq_refl).
Defined.

(** The command with the name of a check after it. *)
Lemma arguments_are_rejected_witness :
  ~ In 10%Z (bytes "/skip ci/lint")
  /\ MatchString skipRe "/skip ci/lint" = false.
Proof.
  assert (~ In 10%Z (bytes "/skip ci/lint")) as N
      by (cbn; intuition discriminate).
  split; [exact N|].
  apply (proj2 arguments_are_rejected "/skip ci/lint"
               (runes (bytes "/skip")) [32%Z] 99%Z (runes (bytes "i/lint")) N).
  - reflexivity.
  - repeat constructor; cbn; tauto.
  - reflexivity.
Defined.

End OnCases.
